(** * ExchangeAPI: the signed-action construction pipeline

    A shallow embedding of [dist/rest/exchange.js].  Every method of the
    [ExchangeAPI] class resolves symbols, builds an action object, reads the
    clock for a nonce, signs and hands one payload to the HTTP layer.  The
    collaborators that live outside the file (symbol directory, signer, HTTP
    layer, the clock) are oracles; every call to one of them is recorded in a
    trace, so that statements about "what happened before what" are
    statements about lists of events. *)

From Stdlib Require Import ZArith String List Lia Floats DecimalString Zpower Sorted.
From Stdlib Require Import DecimalFacts DecimalPos DecimalN.
From stdpp Require Import base list.
Import ListNotations.

Local Open Scope string_scope.
Local Open Scope bool_scope.
Local Open Scope Z_scope.
Local Open Scope list_scope.

Reserved Notation "x <- m ;; k"
  (at level 100, m at next level, right associativity).

(** ** Plain data *)

(** A JavaScript [number] handed in by the caller is an IEEE-754 binary64
    value.  Timestamps ([Date.now()]) and asset indices are integral and are
    kept in [Z]. *)
Definition number := float.

(** ** [Number.prototype.toString]

    [amount.toString()] is the built-in conversion of ECMA-262
    (Number::toString, radix 10): the shortest decimal digit string that
    reads back as the same binary64 value, laid out in positional or
    exponent form.  A finite value is [m * 2^e]; all comparisons are exact
    integer comparisons. *)
Module Number.

(** Decimal numeral of a non-negative integer. *)
Definition decimal (n : Z) : string := NilZero.string_of_uint (N.to_uint (Z.to_N n)).

Fixpoint zeros (n : nat) : string :=
  match n with
  | O => ""
  | S n' => ("0" ++ zeros n')%string
  end.

(** [compare_scaled s p c q] compares [s * 10^p] with [c * 2^q]. *)
Definition compare_scaled (s p c q : Z) : comparison :=
  Z.compare (s * 10 ^ Z.max p 0 * 2 ^ Z.max (- q) 0)
            (c * 2 ^ Z.max q 0 * 10 ^ Z.max (- p) 0).

(** [floor (m * 2^e / 10^p)] *)
Definition floor_scaled (m e p : Z) : Z :=
  (m * 2 ^ Z.max e 0 * 10 ^ Z.max (- p) 0) / (2 ^ Z.max (- e) 0 * 10 ^ Z.max p 0).

(** Does [s * 10^p] round to the binary64 value [m * 2^e]? *)
Definition rounds_to (m e s p : Z) : bool :=
  let lo := if (m =? 2 ^ 52) && (-1074 <? e) then 4 * m - 1 else 4 * m - 2 in
  let hi := 4 * m + 2 in
  match compare_scaled s p lo (e - 2), compare_scaled s p hi (e - 2) with
  | Gt, Lt => true
  | Eq, Lt | Gt, Eq | Eq, Eq => Z.even m
  | _, _ => false
  end.

(** The [n] with [10^(n-1) <= m * 2^e < 10^n]. *)
Fixpoint decade_from (fuel : nat) (m e n : Z) : Z :=
  match fuel with
  | O => n
  | S fuel' =>
      match compare_scaled 1 n m e with
      | Gt => n
      | _ => decade_from fuel' m e (n + 1)
      end
  end.

Definition decade (m e : Z) : Z :=
  decade_from 4 m e ((e + Z.log2 m) * 30103 / 100000 - 1).

(** The shortest digit string: [(s, k, n)] with [s] of [k] digits and
    [s * 10^(n-k)] rounding to [m * 2^e]. *)
Fixpoint shortest_from (fuel : nat) (m e nx k : Z) : Z * Z * Z :=
  let p := nx - k in
  let s0 := floor_scaled m e p in
  let s1 := s0 + 1 in
  let pick s := if s =? 10 ^ k then (10 ^ (k - 1), k, nx + 1) else (s, k, nx) in
  match fuel with
  | O => pick s0
  | S fuel' =>
      match rounds_to m e s0 p, rounds_to m e s1 p with
      | true, true =>
          match compare_scaled (2 * s0 + 1) p (2 * m) e with
          | Lt => pick s1
          | _ => pick s0
          end
      | true, false => pick s0
      | false, true => pick s1
      | false, false => shortest_from fuel' m e nx (k + 1)
      end
  end.

Definition shortest (m e : Z) : Z * Z * Z := shortest_from 17 m e (decade m e) 1.

Definition take (n : Z) (s : string) : string := substring 0 (Z.to_nat n) s.
Definition drop (n : Z) (s : string) : string :=
  substring (Z.to_nat n) (String.length s - Z.to_nat n) s.

(** Steps 5 to 9 of Number::toString for radix 10. *)
Definition format (s k n : Z) : string :=
  let ds := decimal s in
  if (k <=? n) && (n <=? 21) then (ds ++ zeros (Z.to_nat (n - k)))%string
  else if (0 <? n) && (n <=? 21) then (take n ds ++ "." ++ drop n ds)%string
  else if (-6 <? n) && (n <=? 0) then
    ("0." ++ zeros (Z.to_nat (- n)) ++ ds)%string
  else
    let sign := if 0 <=? n - 1 then "+" else "-" in
    let ex := (sign ++ decimal (Z.abs (n - 1)))%string in
    if k =? 1 then (ds ++ "e" ++ ex)%string
    else (take 1 ds ++ "." ++ drop 1 ds ++ "e" ++ ex)%string.

(** [x.toString()] for a number [x] (ECMA-262, Number::toString, radix 10). *)
Definition toString (x : float) : string :=
  match Prim2SF x with
  | S754_nan => "NaN"
  | S754_zero _ => "0"
  | S754_infinity sg => if sg then "-Infinity" else "Infinity"
  | S754_finite sg m e =>
      let '(s, k, n) := shortest (Z.pos m) e in
      ((if sg then "-" else "") ++ format s k n)%string
  end.

End Number.

(** [Number.isInteger(x)] *)
Definition Number_isInteger (x : number) : bool :=
  match Prim2SF x with
  | S754_zero _ => true
  | S754_finite _ m e => (0 <=? e) || (Z.pos m mod 2 ^ (- e) =? 0)
  | _ => false
  end.

(** The number that is the integer [z]. *)
Definition Z2number (z : Z) : number := SF2Prim (binary_normalize prec emax z 0 false).

(** The 53-bit mantissa of a positive integer below [2^53]. *)
Definition mant53 (p : positive) : positive :=
  match (53 - Z.pos (Pos.size p))%Z with
  | Z.pos k => Pos.iter xO p k
  | _ => p
  end.

(** For an integer of [L + 1] bits, [L <= 52], the search of [Number.decade]
    starts low enough and its bound is high enough. *)
Definition decade_check (L : Z) : bool :=
  let n0 := L * 30103 / 100000 - 1 in
  let J := Z.min (n0 + 4) 16 in
  (2 ^ (L + 1) <=? 10 ^ J) && (n0 <=? J) && (-1 <=? n0).

(** The members of [constants_1.ExchangeType] the file refers to.  Their
    string values live in [types/constants], only the member names are used
    here. *)
Inductive ExchangeType :=
| CANCEL | CANCEL_BY_CLOID | MODIFY | BATCH_MODIFY | UPDATE_LEVERAGE
| UPDATE_ISOLATED_MARGIN | USD_SEND | SPOT_SEND | WITHDRAW | SPOT_USER
| SCHEDULE_CANCEL | VAULT_TRANSFER | SET_REFERRER.

(** [const IS_MAINNET = true;] *)
Definition IS_MAINNET : bool := true.

(** A key of an object literal: either left out or written with a value. *)
Inductive field (A : Type) :=
| absent
| present (v : A).
Arguments absent {A}.
Arguments present {A} v.

(** [cancelRequests] is either one request or an array of them. *)
Inductive OneOrMany (A : Type) :=
| One (x : A)
| Many (xs : list A).
Arguments One {A} x.
Arguments Many {A} xs.

(** [Array.isArray(x) ? x : [x]] *)
Definition toArray {A} (x : OneOrMany A) : list A :=
  match x with
  | Many xs => xs
  | One r => [r]
  end.

(** [{ coin, o }], one entry of [cancelOrder]'s argument. *)
Record CancelOrderRequest := { cr_coin : string; cr_o : number }.

(** [{ ...req, a }], the request after its index was attached. *)
Record CancelWithIndex := { cwi_coin : string; cwi_o : number; cwi_a : Z }.

(** [{ a, o }], one entry of a cancel action. *)
Record CancelWire := { a : Z; o : number }.

(** [{ asset, cloid }], one entry of a cancel-by-cloid action. *)
Record CloidCancel := { asset : Z; cloid : string }.

(** [{ usdc, toPerp }] *)
Record ClassTransfer := { usdc : number; toPerp : bool }.

(** [{ name, type }], one entry of a typed-data field list. *)
Record TypedField := { tf_name : string; tf_type : string }.

(** ** What lives outside the file

    [utils/signing], [utils/helpers] and the wallet are not part of the
    file.  Their types stay abstract; [orderRequestToOrderWire] and
    [orderWiresToOrderAction] are the two pure helpers of [utils/signing].
    The asset argument of [orderRequestToOrderWire] is a JavaScript value
    that is a number or [undefined] ([None]): [batchModifyOrders] passes
    [assetIndices[index]].

    [wire_asset] and [action_orders] read an order wire and an order action
    back: the asset a wire carries and the wires an order action carries. *)
Class Platform := {
  Wallet : Type;
  Signature : Type;
  Response : Type;
  Info : Type;
  Failure : Type;
  OrderRequest : Type;
  OrderWire : Type;
  OrderAction : Type;
  coin : OrderRequest -> string;
  orderRequestToOrderWire : OrderRequest -> option Z -> OrderWire;
  orderWiresToOrderAction : list OrderWire -> OrderAction;
  wire_asset : OrderWire -> option Z;
  action_orders : OrderAction -> list OrderWire
}.

(** Modelled from the spec: [orderRequestToOrderWire] and
    [orderWiresToOrderAction] belong to [utils/signing], which is not part
    of the file.  The specification describes an order wire as the
    "encoding of an OrderRequest with coin replaced by AssetIndex" and the
    order action as "containing one OrderWire with asset=3" for one order
    resolved to 3: a wire carries the asset it was made with, an order
    action carries the wires it was made from. *)
Definition wire_law (P : Platform) : Prop :=
  forall r i, wire_asset (orderRequestToOrderWire r i) = i.

Definition order_action_law (P : Platform) : Prop :=
  forall ws, action_orders (orderWiresToOrderAction ws) = ws.

Section Exchange.

Context {P : Platform}.

(** [{ oid, order }], one entry of [batchModifyOrders]'s argument. *)
Record ModifyRequest := { mr_oid : number; mr_order : OrderRequest }.

(** [{ oid, order }] with the order in wire form. *)
Record ModifyWire := { oid : number; order : OrderWire }.

(** The action objects the file builds, one constructor per object-literal
    shape, fields in the order they are written. *)
Inductive Action :=
| OrderAct (act : OrderAction)
| CancelAct (type : ExchangeType) (cancels : list CancelWire)
| CancelByCloidAct (type : ExchangeType) (cancels : list CloidCancel)
| ModifyAct (type : ExchangeType) (oid : number) (order : OrderWire)
| BatchModifyAct (type : ExchangeType) (modifies : list ModifyWire)
| UpdateLeverageAct (type : ExchangeType) (asset : Z) (isCross : bool)
    (leverage : number)
| UpdateIsolatedMarginAct (type : ExchangeType) (asset : Z) (isBuy : bool)
    (ntli : number)
| SendAct (type : ExchangeType) (hyperliquidChain signatureChainId : string)
    (destination : string) (amount : string) (time : Z)
| SpotSendAct (type : ExchangeType) (hyperliquidChain signatureChainId : string)
    (destination token amount : string) (time : Z)
| SpotUserAct (type : ExchangeType) (classTransfer : ClassTransfer)
| ScheduleCancelAct (type : ExchangeType) (time : number)
| VaultTransferAct (type : ExchangeType) (vaultAddress : string)
    (isDeposit : bool) (usd : number)
| SetReferrerAct (type : ExchangeType) (code : string).

(** [{ action, nonce, signature }] and, for [placeOrder],
    [{ action, nonce, signature, vaultAddress }]; a [vaultAddress] that is
    written may hold [null] ([None]). *)
Record Payload := {
  action : Action;
  nonce : Z;
  signature : Signature;
  vaultAddress : field (option string)
}.

(** What a rejected promise carries: an [Error] made in this file, or
    whatever a collaborator threw. *)
Inductive thrown :=
| Error (message : string)
| Foreign (f : Failure).

Inductive result (A : Type) :=
| Ok (x : A)
| Throw (e : thrown).
Arguments Ok {A} x.
Arguments Throw {A} e.

(** The signing functions of [utils/signing]. *)
Class Signing := {
  signL1Action : Wallet -> Action -> option string -> Z -> result Signature;
  signUsdTransferAction : Wallet -> Action -> result Signature;
  signUserSignedAction :
    Wallet -> Action -> list TypedField -> string -> result Signature;
  signWithdrawFromBridgeAction : Wallet -> Action -> result Signature
}.

Context {S : Signing}.

(** ** Effects

    One event per call that leaves the file. *)
Inductive Event :=
| EvResolve (symbol : string) (index : option Z)
| EvNow (t : Z)
| EvSignL1 (act : Action) (vault : option string) (n : Z)
| EvSignUsdTransfer (act : Action)
| EvSignUserSigned (act : Action) (types : list TypedField) (primaryType : string)
| EvSignWithdraw (act : Action)
| EvRequest (payload : Payload) (weight : Z).

(** The world is the trace so far, oldest event first; its length is the
    logical time at which the next outside call is made. *)
Definition World := list Event.

(** The clock: the value [Date.now()] returns at a logical time. *)
Variable clock : nat -> Z.

(** [this.httpApi] and [this.symbolConversion]; both may answer differently
    as time passes. *)
Record HttpApi := { makeRequest : nat -> Payload -> Z -> result Response }.

(** The symbol directory: what a lookup made at logical time [k] answers,
    and the moment at which the promise of the lookup made at logical time
    [k] settles.  Lookups started one after the other need not settle in
    the order they were started. *)
Record SymbolConversion := {
  sc_getAssetIndex : nat -> string -> option Z;
  sc_settles : nat -> nat
}.

(** The fields the constructor stores. *)
Record ExchangeAPI := {
  info : Info;
  httpApi : HttpApi;
  wallet : Wallet;
  symbolConversion : SymbolConversion
}.

(** Asynchronous code as a state-and-exception monad over the trace. *)
Definition M (A : Type) := World -> result A * World.

Definition ret {A} (x : A) : M A := fun w => (Ok x, w).

Definition throw {A} (e : thrown) : M A := fun w => (Throw e, w).

Definition bind {A B} (m : M A) (k : A -> M B) : M B :=
  fun w =>
    match m w with
    | (Ok x, w') => k x w'
    | (Throw e, w') => (Throw e, w')
    end.

(** [try { m } catch (error) { h(error) }] *)
Definition try_catch {A} (m : M A) (h : thrown -> M A) : M A :=
  fun w =>
    match m w with
    | (Ok x, w') => (Ok x, w')
    | (Throw e, w') => h e w'
    end.

(** An outside call: look the answer up at the current logical time and
    record the event. *)
Definition outside {A} (answer : nat -> result A) (ev : nat -> Event) : M A :=
  fun w => (answer (length w), w ++ [ev (length w)]).

Notation "x <- m ;; k" := (bind m (fun x => k)).

(** [Date.now()] *)
Definition Date_now : M Z :=
  outside (fun k => Ok (clock k)) (fun k => EvNow (clock k)).

(** [this.symbolConversion.getAssetIndex(symbol)]; [None] is [undefined]. *)
Definition symbolConversion_getAssetIndex (this : ExchangeAPI) (symbol : string)
  : M (option Z) :=
  outside (fun k => Ok (sc_getAssetIndex (symbolConversion this) k symbol))
          (fun k => EvResolve symbol (sc_getAssetIndex (symbolConversion this) k symbol)).

(** [await signL1Action(wallet, action, vaultAddress, nonce)] and its three
    typed-data siblings. *)
Definition await_signL1Action (w : Wallet) (act : Action) (vault : option string)
    (n : Z) : M Signature :=
  outside (fun _ => signL1Action w act vault n) (fun _ => EvSignL1 act vault n).

Definition await_signUsdTransferAction (w : Wallet) (act : Action) : M Signature :=
  outside (fun _ => signUsdTransferAction w act) (fun _ => EvSignUsdTransfer act).

Definition await_signUserSignedAction (w : Wallet) (act : Action)
    (types : list TypedField) (primaryType : string) : M Signature :=
  outside (fun _ => signUserSignedAction w act types primaryType)
          (fun _ => EvSignUserSigned act types primaryType).

Definition await_signWithdrawFromBridgeAction (w : Wallet) (act : Action)
  : M Signature :=
  outside (fun _ => signWithdrawFromBridgeAction w act) (fun _ => EvSignWithdraw act).

(** [this.httpApi.makeRequest(payload, weight)] *)
Definition httpApi_makeRequest (this : ExchangeAPI) (payload : Payload) (weight : Z)
  : M Response :=
  outside (fun k => makeRequest (httpApi this) k payload weight)
          (fun _ => EvRequest payload weight).

(** [Promise.all(ps)]: every promise of the array has been started, in array
    order, before the first one settles, so the outside calls of all of them
    happen, in array order, also when one of them rejects.  A promise
    started at logical time [k] settles at the moment [settles k].  When all
    fulfil, the results come back by position; otherwise [Promise.all]
    rejects with the rejection that settles first (of two that settle at the
    same moment, the one earlier in the array), whatever its position.

    [settle_all] gives the values, or the winning rejection with the moment
    at which it settled. *)
Fixpoint settle_all {A} (settles : nat -> nat) (ps : list (M A)) (w : World)
  : (list A + nat * thrown) * World :=
  match ps with
  | [] => (inl [], w)
  | p :: ps' =>
      let (r, w1) := p w in
      let (rs, w2) := settle_all settles ps' w1 in
      (match r, rs with
       | Ok x, inl xs => inl (x :: xs)
       | Ok _, inr later => inr later
       | Throw e, inl _ => inr (settles (length w), e)
       | Throw e, inr (m, e') =>
           if (m <? settles (length w))%nat then inr (m, e')
           else inr (settles (length w), e)
       end, w2)
  end.

Definition Promise_all {A} (settles : nat -> nat) (ps : list (M A)) : M (list A) :=
  fun w =>
    let (r, w') := settle_all settles ps w in
    (match r with
     | inl xs => Ok xs
     | inr (_, e) => Throw e
     end, w').

(** ** The methods of [ExchangeAPI] *)

Definition getAssetIndex (this : ExchangeAPI) (symbol : string) : M Z :=
  index <- symbolConversion_getAssetIndex this symbol ;;
  match index with
  | None => throw (Error ("Unknown asset: " ++ symbol)%string)
  | Some i => ret i
  end.

(** [vaultAddress = null]: a parameter that was not passed is [null]. *)
Definition default_null (arg : field (option string)) : option string :=
  match arg with
  | absent => None
  | present v => v
  end.

Definition placeOrder (this : ExchangeAPI) (orderRequest : OrderRequest)
    (vaultAddress_arg : field (option string)) : M Response :=
  let vaultAddress := default_null vaultAddress_arg in
  try_catch
    (assetIndex <- getAssetIndex this (coin orderRequest) ;;
     let orderWire := orderRequestToOrderWire orderRequest (Some assetIndex) in
     let action := OrderAct (orderWiresToOrderAction [orderWire]) in
     nonce <- Date_now ;;
     signature <- await_signL1Action (wallet this) action vaultAddress nonce ;;
     let payload := {| action := action; nonce := nonce; signature := signature;
                       vaultAddress := present vaultAddress |} in
     httpApi_makeRequest this payload 1)
    throw.

Definition cancelOrder (this : ExchangeAPI)
    (cancelRequests : OneOrMany CancelOrderRequest) : M Response :=
  try_catch
    (let cancels := toArray cancelRequests in
     cancelsWithIndices <-
       Promise_all (sc_settles (symbolConversion this))
         (map (fun req =>
                 a <- getAssetIndex this (cr_coin req) ;;
                 ret {| cwi_coin := cr_coin req; cwi_o := cr_o req; cwi_a := a |})
              cancels) ;;
     let action :=
       CancelAct CANCEL
         (map (fun c => {| a := cwi_a c; o := cwi_o c |}) cancelsWithIndices) in
     nonce <- Date_now ;;
     signature <- await_signL1Action (wallet this) action None nonce ;;
     let payload := {| action := action; nonce := nonce; signature := signature;
                       vaultAddress := absent |} in
     httpApi_makeRequest this payload 1)
    throw.

Definition cancelOrderByCloid (this : ExchangeAPI) (symbol : string)
    (cloid : string) : M Response :=
  try_catch
    (assetIndex <- getAssetIndex this symbol ;;
     let action :=
       CancelByCloidAct CANCEL_BY_CLOID [{| asset := assetIndex; cloid := cloid |}] in
     nonce <- Date_now ;;
     signature <- await_signL1Action (wallet this) action None nonce ;;
     let payload := {| action := action; nonce := nonce; signature := signature;
                       vaultAddress := absent |} in
     httpApi_makeRequest this payload 1)
    throw.

Definition modifyOrder (this : ExchangeAPI) (oid : number)
    (orderRequest : OrderRequest) : M Response :=
  try_catch
    (assetIndex <- getAssetIndex this (coin orderRequest) ;;
     let orderWire := orderRequestToOrderWire orderRequest (Some assetIndex) in
     let action := ModifyAct MODIFY oid orderWire in
     nonce <- Date_now ;;
     signature <- await_signL1Action (wallet this) action None nonce ;;
     let payload := {| action := action; nonce := nonce; signature := signature;
                       vaultAddress := absent |} in
     httpApi_makeRequest this payload 1)
    throw.

Definition batchModifyOrders (this : ExchangeAPI) (modifies : list ModifyRequest)
  : M Response :=
  try_catch
    (assetIndices <-
       Promise_all (sc_settles (symbolConversion this))
         (map (fun m => getAssetIndex this (coin (mr_order m))) modifies) ;;
     let action :=
       BatchModifyAct BATCH_MODIFY
         (imap (fun index m =>
                  {| oid := mr_oid m;
                     order := orderRequestToOrderWire (mr_order m)
                                (assetIndices !! index) |})
               modifies) in
     nonce <- Date_now ;;
     signature <- await_signL1Action (wallet this) action None nonce ;;
     let payload := {| action := action; nonce := nonce; signature := signature;
                       vaultAddress := absent |} in
     httpApi_makeRequest this payload 1)
    throw.

Definition updateLeverage (this : ExchangeAPI) (symbol leverageMode : string)
    (leverage : number) : M Response :=
  try_catch
    (assetIndex <- getAssetIndex this symbol ;;
     let action :=
       UpdateLeverageAct UPDATE_LEVERAGE assetIndex
         (String.eqb leverageMode "cross") leverage in
     nonce <- Date_now ;;
     signature <- await_signL1Action (wallet this) action None nonce ;;
     let payload := {| action := action; nonce := nonce; signature := signature;
                       vaultAddress := absent |} in
     httpApi_makeRequest this payload 1)
    throw.

Definition updateIsolatedMargin (this : ExchangeAPI) (symbol : string)
    (isBuy : bool) (ntli : number) : M Response :=
  try_catch
    (assetIndex <- getAssetIndex this symbol ;;
     let action := UpdateIsolatedMarginAct UPDATE_ISOLATED_MARGIN assetIndex isBuy ntli in
     nonce <- Date_now ;;
     signature <- await_signL1Action (wallet this) action None nonce ;;
     let payload := {| action := action; nonce := nonce; signature := signature;
                       vaultAddress := absent |} in
     httpApi_makeRequest this payload 1)
    throw.

(** [IS_MAINNET ? 'Mainnet' : 'Testnet'] *)
Definition chainName (mainnet : bool) : string :=
  if mainnet then "Mainnet" else "Testnet".

(** [action.time] of the three transfer actions. *)
Definition action_time (act : Action) : option Z :=
  match act with
  | SendAct _ _ _ _ _ t => Some t
  | SpotSendAct _ _ _ _ _ _ t => Some t
  | _ => None
  end.

Definition usdTransfer (this : ExchangeAPI) (destination : string)
    (amount : number) : M Response :=
  try_catch
    (time <- Date_now ;;
     let action :=
       SendAct USD_SEND (chainName IS_MAINNET) "0xa4b1" destination
         (Number.toString amount) time in
     signature <- await_signUsdTransferAction (wallet this) action ;;
     let payload := {| action := action; nonce := time; signature := signature;
                       vaultAddress := absent |} in
     httpApi_makeRequest this payload 1)
    throw.

Definition spotTransfer (this : ExchangeAPI) (destination token amount : string)
  : M Response :=
  try_catch
    (time <- Date_now ;;
     let action :=
       SpotSendAct SPOT_SEND (chainName IS_MAINNET) "0xa4b1" destination token
         amount time in
     signature <-
       await_signUserSignedAction (wallet this) action
         [ {| tf_name := "hyperliquidChain"; tf_type := "string" |};
           {| tf_name := "destination"; tf_type := "string" |};
           {| tf_name := "token"; tf_type := "string" |};
           {| tf_name := "amount"; tf_type := "string" |};
           {| tf_name := "time"; tf_type := "uint64" |} ]
         "HyperliquidTransaction:SpotSend" ;;
     let payload := {| action := action; nonce := time; signature := signature;
                       vaultAddress := absent |} in
     httpApi_makeRequest this payload 1)
    throw.

Definition initiateWithdrawal (this : ExchangeAPI) (destination : string)
    (amount : number) : M Response :=
  try_catch
    (time <- Date_now ;;
     let action :=
       SendAct WITHDRAW (chainName IS_MAINNET) "0xa4b1" destination
         (Number.toString amount) time in
     signature <- await_signWithdrawFromBridgeAction (wallet this) action ;;
     let payload := {| action := action; nonce := time; signature := signature;
                       vaultAddress := absent |} in
     httpApi_makeRequest this payload 1)
    throw.

Definition transferBetweenSpotAndPerp (this : ExchangeAPI) (usdc : number)
    (toPerp : bool) : M Response :=
  try_catch
    (let action :=
       SpotUserAct SPOT_USER {| usdc := (usdc * 1e6)%float; toPerp := toPerp |} in
     nonce <- Date_now ;;
     signature <- await_signL1Action (wallet this) action None nonce ;;
     let payload := {| action := action; nonce := nonce; signature := signature;
                       vaultAddress := absent |} in
     httpApi_makeRequest this payload 1)
    throw.

Definition scheduleCancel (this : ExchangeAPI) (time : number) : M Response :=
  try_catch
    (let action := ScheduleCancelAct SCHEDULE_CANCEL time in
     nonce <- Date_now ;;
     signature <- await_signL1Action (wallet this) action None nonce ;;
     let payload := {| action := action; nonce := nonce; signature := signature;
                       vaultAddress := absent |} in
     httpApi_makeRequest this payload 1)
    throw.

Definition vaultTransfer (this : ExchangeAPI) (vaultAddress : string)
    (isDeposit : bool) (usd : number) : M Response :=
  try_catch
    (let action := VaultTransferAct VAULT_TRANSFER vaultAddress isDeposit usd in
     nonce <- Date_now ;;
     signature <- await_signL1Action (wallet this) action None nonce ;;
     let payload := {| action := action; nonce := nonce; signature := signature;
                       vaultAddress := absent |} in
     httpApi_makeRequest this payload 1)
    throw.

Definition setReferrer (this : ExchangeAPI) (code : string) : M Response :=
  try_catch
    (let action := SetReferrerAct SET_REFERRER code in
     nonce <- Date_now ;;
     signature <- await_signL1Action (wallet this) action None nonce ;;
     let payload := {| action := action; nonce := nonce; signature := signature;
                       vaultAddress := absent |} in
     httpApi_makeRequest this payload 1)
    throw.

(** ** Calls

    One constructor per public method, so that a statement can range over
    "every operation". *)
Inductive Call :=
| PlaceOrder (orderRequest : OrderRequest) (vaultAddress : field (option string))
| CancelOrder (cancelRequests : OneOrMany CancelOrderRequest)
| CancelOrderByCloid (symbol cloid : string)
| ModifyOrder (oid : number) (orderRequest : OrderRequest)
| BatchModifyOrders (modifies : list ModifyRequest)
| UpdateLeverage (symbol leverageMode : string) (leverage : number)
| UpdateIsolatedMargin (symbol : string) (isBuy : bool) (ntli : number)
| UsdTransfer (destination : string) (amount : number)
| SpotTransfer (destination token amount : string)
| InitiateWithdrawal (destination : string) (amount : number)
| TransferBetweenSpotAndPerp (usdc : number) (toPerp : bool)
| ScheduleCancel (time : number)
| VaultTransfer (vaultAddress : string) (isDeposit : bool) (usd : number)
| SetReferrer (code : string).

Definition call (this : ExchangeAPI) (c : Call) : M Response :=
  match c with
  | PlaceOrder r v => placeOrder this r v
  | CancelOrder rs => cancelOrder this rs
  | CancelOrderByCloid s c => cancelOrderByCloid this s c
  | ModifyOrder i r => modifyOrder this i r
  | BatchModifyOrders ms => batchModifyOrders this ms
  | UpdateLeverage s m l => updateLeverage this s m l
  | UpdateIsolatedMargin s b n => updateIsolatedMargin this s b n
  | UsdTransfer d x => usdTransfer this d x
  | SpotTransfer d t x => spotTransfer this d t x
  | InitiateWithdrawal d x => initiateWithdrawal this d x
  | TransferBetweenSpotAndPerp u p => transferBetweenSpotAndPerp this u p
  | ScheduleCancel t => scheduleCancel this t
  | VaultTransfer v d u => vaultTransfer this v d u
  | SetReferrer c => setReferrer this c
  end.

(** The symbols a call refers to, in the order it resolves them. *)
Definition symbols (c : Call) : list string :=
  match c with
  | PlaceOrder r _ => [coin r]
  | CancelOrder rs => map cr_coin (toArray rs)
  | CancelOrderByCloid s _ => [s]
  | ModifyOrder _ r => [coin r]
  | BatchModifyOrders ms => map (fun m => coin (mr_order m)) ms
  | UpdateLeverage s _ _ => [s]
  | UpdateIsolatedMargin s _ _ => [s]
  | _ => []
  end.

Definition is_placeOrder (c : Call) : bool :=
  match c with
  | PlaceOrder _ _ => true
  | _ => false
  end.

Definition is_transfer (c : Call) : bool :=
  match c with
  | UsdTransfer _ _ | SpotTransfer _ _ _ | InitiateWithdrawal _ _ => true
  | _ => false
  end.

(** ** Reading a trace *)

(** The events a computation adds to the world it starts from. *)
Definition events {A} (m : M A) (w : World) : list Event :=
  drop (length w) (snd (m w)).

(** The action a signing event covers, the nonce that goes with it (the
    [nonce] argument for the L1 scheme, [action.time] for typed data) and
    whether the event used the L1 scheme. *)
Definition signed_action (e : Event) : option Action :=
  match e with
  | EvSignL1 act _ _ => Some act
  | EvSignUsdTransfer act => Some act
  | EvSignUserSigned act _ _ => Some act
  | EvSignWithdraw act => Some act
  | _ => None
  end.

Definition sign_nonce (e : Event) : option Z :=
  match e with
  | EvSignL1 _ _ n => Some n
  | EvSignUsdTransfer act => action_time act
  | EvSignUserSigned act _ _ => action_time act
  | EvSignWithdraw act => action_time act
  | _ => None
  end.

Definition is_signL1 (e : Event) : bool :=
  match e with
  | EvSignL1 _ _ _ => true
  | _ => false
  end.

Definition clock_read (e : Event) : option Z :=
  match e with
  | EvNow t => Some t
  | _ => None
  end.

Definition request (e : Event) : option Payload :=
  match e with
  | EvRequest p _ => Some p
  | _ => None
  end.

Definition resolution (e : Event) : option (string * option Z) :=
  match e with
  | EvResolve s i => Some (s, i)
  | _ => None
  end.

Definition clock_reads (evs : list Event) : list Z := omap clock_read evs.
Definition signed_actions (evs : list Event) : list Action := omap signed_action evs.
Definition nonces (evs : list Event) : list Z := omap sign_nonce evs.
Definition requests (evs : list Event) : list Payload := omap request evs.
Definition resolutions (evs : list Event) : list (string * option Z) :=
  omap resolution evs.

(** The asset indices an action carries, in the order of its entries. *)
Definition action_assets (act : Action) : list (option Z) :=
  match act with
  | OrderAct oa => map wire_asset (action_orders oa)
  | CancelAct _ cs => map (fun c => Some (a c)) cs
  | CancelByCloidAct _ cs => map (fun c => Some (asset c)) cs
  | ModifyAct _ _ w => [wire_asset w]
  | BatchModifyAct _ ms => map (fun m => wire_asset (order m)) ms
  | UpdateLeverageAct _ i _ _ => [Some i]
  | UpdateIsolatedMarginAct _ i _ _ => [Some i]
  | _ => []
  end.

(** ** The directory seen from a call

    A call that starts at logical time [k] asks for its symbols one after
    the other: the [i]-th at time [k + i]. *)
Fixpoint answers (this : ExchangeAPI) (k : nat) (syms : list string)
  : list (option Z) :=
  match syms with
  | [] => []
  | s :: syms' =>
      sc_getAssetIndex (symbolConversion this) k s :: answers this (Datatypes.S k) syms'
  end.

(** All answers, when none is [undefined]. *)
Fixpoint resolved (ans : list (option Z)) : option (list Z) :=
  match ans with
  | [] => Some []
  | None :: _ => None
  | Some i :: ans' =>
      match resolved ans' with
      | Some l => Some (i :: l)
      | None => None
      end
  end.

(** Among the symbols of [syms], looked up one after the other from
    logical time [k] on, the one whose lookup is the first to settle without
    an answer, with the moment at which it settles. *)
Fixpoint first_settled_unknown (this : ExchangeAPI) (k : nat) (syms : list string)
  : option (nat * string) :=
  match syms with
  | [] => None
  | s :: syms' =>
      let later := first_settled_unknown this (Datatypes.S k) syms' in
      match sc_getAssetIndex (symbolConversion this) k s with
      | Some _ => later
      | None =>
          let now := sc_settles (symbolConversion this) k in
          match later with
          | Some (m, s') => if (m <? now)%nat then Some (m, s') else Some (now, s)
          | None => Some (now, s)
          end
      end
  end.

Definition first_unknown (this : ExchangeAPI) (k : nat) (syms : list string)
  : option string :=
  snd <$> first_settled_unknown this k syms.

Definition resolve_events (syms : list string) (ans : list (option Z)) : list Event :=
  zip_with EvResolve syms ans.

(** The part every method shares once its symbols are resolved: read the
    clock, build, sign, assemble, dispatch. *)
Definition finish (this : ExchangeAPI) (sign : Action -> Z -> result Signature)
    (sign_event : Action -> Z -> Event) (build : Z -> Action)
    (vault : field (option string)) : M Response :=
  t <- Date_now ;;
  sg <- outside (fun _ => sign (build t) t) (fun _ => sign_event (build t) t) ;;
  httpApi_makeRequest this
    {| action := build t; nonce := t; signature := sg; vaultAddress := vault |} 1.

(** The signing event a call produces for the action [act] at clock
    reading [t], what the signer answers to it, and what the call writes
    into the [vaultAddress] key of its payload. *)
Definition sign_event_of (c : Call) (act : Action) (t : Z) : Event :=
  match c with
  | PlaceOrder _ v => EvSignL1 act (default_null v) t
  | UsdTransfer _ _ => EvSignUsdTransfer act
  | SpotTransfer _ _ _ =>
      EvSignUserSigned act
        [ {| tf_name := "hyperliquidChain"; tf_type := "string" |};
          {| tf_name := "destination"; tf_type := "string" |};
          {| tf_name := "token"; tf_type := "string" |};
          {| tf_name := "amount"; tf_type := "string" |};
          {| tf_name := "time"; tf_type := "uint64" |} ]
        "HyperliquidTransaction:SpotSend"
  | InitiateWithdrawal _ _ => EvSignWithdraw act
  | _ => EvSignL1 act None t
  end.

Definition signer_answer (this : ExchangeAPI) (e : Event) : option (result Signature) :=
  match e with
  | EvSignL1 act v n => Some (signL1Action (wallet this) act v n)
  | EvSignUsdTransfer act => Some (signUsdTransferAction (wallet this) act)
  | EvSignUserSigned act tys pt =>
      Some (signUserSignedAction (wallet this) act tys pt)
  | EvSignWithdraw act => Some (signWithdrawFromBridgeAction (wallet this) act)
  | _ => None
  end.

Definition vault_field (c : Call) : field (option string) :=
  match c with
  | PlaceOrder _ v => present (default_null v)
  | _ => absent
  end.

(** What a call that got past resolution does from world [w'], given the
    clock reading [t], its signing event [sev] for the action [act] and the
    signer's answer [r]. *)
Definition dispatch (this : ExchangeAPI) (w' : World) (sev : Event)
    (r : result Signature) (act : Action) (t : Z) (vault : field (option string))
  : result Response * World :=
  match r with
  | Ok sg =>
      let p := {| action := act; nonce := t; signature := sg; vaultAddress := vault |} in
      (makeRequest (httpApi this) (length w' + 2) p 1,
       w' ++ [EvNow t; sev; EvRequest p 1])
  | Throw e => (Throw e, w' ++ [EvNow t; sev])
  end.

(** Calls made one after the other on one instance, each awaited (and a
    rejection caught) before the next is made: the world they leave. *)
Fixpoint session (this : ExchangeAPI) (cs : list Call) (w : World) : World :=
  match cs with
  | [] => w
  | c :: cs' => session this cs' (snd (call this c w))
  end.

End Exchange.

Arguments Ok {P A} x.
Arguments Throw {P A} e.

Notation "x <- m ;; k" := (bind m (fun x => k)).

(** ** A small concrete platform

    Used to run the methods on concrete inputs. *)
Module Demo.

Record Order := { o_coin : string; o_is_buy : bool; o_px : string; o_sz : string }.

Definition platform : Platform := {|
  Wallet := unit;
  Signature := string;
  Response := string;
  Info := unit;
  Failure := string;
  OrderRequest := Order;
  OrderWire := option Z * Order;
  OrderAction := list (option Z * Order);
  coin := o_coin;
  orderRequestToOrderWire := fun r i => (i, r);
  orderWiresToOrderAction := fun ws => ws;
  wire_asset := fst;
  action_orders := fun ws => ws
|}.

#[local] Existing Instance platform.

Definition signing : @Signing platform := {|
  signL1Action := fun _ _ _ _ => Ok "sigL1";
  signUsdTransferAction := fun _ _ => Ok "sigUsd";
  signUserSignedAction := fun _ _ _ _ => Ok "sigUser";
  signWithdrawFromBridgeAction := fun _ _ => Ok "sigWithdraw"
|}.

(** A directory that knows two symbols. *)
Definition directory (k : nat) (s : string) : option Z :=
  if String.eqb s "BTC" then Some 3
  else if String.eqb s "ETH" then Some 1
  else None.

(** An instance whose lookups settle in the order they are started. *)
Definition api : @ExchangeAPI platform := {|
  info := tt;
  httpApi := {| makeRequest := fun _ _ _ => Ok "ok" |};
  wallet := tt;
  symbolConversion := {| sc_getAssetIndex := directory; sc_settles := fun k => k |}
|}.

(** An instance whose lookups settle in the reverse of the order they are
    started. *)
Definition racing : @ExchangeAPI platform := {|
  info := tt;
  httpApi := {| makeRequest := fun _ _ _ => Ok "ok" |};
  wallet := tt;
  symbolConversion :=
    {| sc_getAssetIndex := directory; sc_settles := fun k => (100 - k)%nat |}
|}.

(** A clock that advances by one millisecond per outside call, and one
    that stays within the same millisecond. *)
Definition ticking (k : nat) : Z := 1700000000000 + Z.of_nat k.
Definition frozen (k : nat) : Z := 1700000000000.

Definition btc_buy : @OrderRequest platform :=
  {| o_coin := "BTC"; o_is_buy := true; o_px := "50000"; o_sz := "0.1" |}.

Definition eth_sell : @OrderRequest platform :=
  {| o_coin := "ETH"; o_is_buy := false; o_px := "3000"; o_sz := "2" |}.

(** The wire and the order action of this platform, at their types. *)
Definition wire (i : option Z) (r : Order) : @OrderWire platform := (i, r).
Definition order_action (ws : list (@OrderWire platform)) : @OrderAction platform := ws.

End Demo.

(** The same platform with a signer that rejects every request and with an
    HTTP layer that rejects every request. *)
Module Faulty.

#[local] Existing Instance Demo.platform.

Definition signing : @Signing Demo.platform := {|
  signL1Action := fun _ _ _ _ => Throw (Foreign "signer down");
  signUsdTransferAction := fun _ _ => Throw (Foreign "signer down");
  signUserSignedAction := fun _ _ _ _ => Throw (Foreign "signer down");
  signWithdrawFromBridgeAction := fun _ _ => Throw (Foreign "signer down")
|}.

Definition offline : @ExchangeAPI Demo.platform := {|
  info := tt;
  httpApi := {| makeRequest := fun _ _ _ => Throw (Foreign "429") |};
  wallet := tt;
  symbolConversion := {| sc_getAssetIndex := Demo.directory; sc_settles := fun k => k |}
|}.

End Faulty.

(** * Facts *)

(** ** Binary64 arithmetic on integers

    An integer below [2^53] is a binary64 number, and multiplying it by
    [1e6] is exact as long as the product stays below [2^53]. *)
Section Numbers.

Lemma digits2_size (p : positive) : digits2_pos p = Pos.size p.
Proof. induction p; simpl; congruence. Qed.

Lemma size_iter (m k : positive) : Pos.size (Pos.iter xO m k) = (Pos.size m + k)%positive.
Proof.
  revert m. induction k as [k IH|k IH|]; intros m; simpl.
  - rewrite !IH. lia.
  - rewrite !IH. lia.
  - lia.
Qed.

Lemma iter_value (m k : positive) : Z.pos (Pos.iter xO m k) = Z.pos m * 2 ^ Z.pos k.
Proof.
  change (Pos.iter xO m k) with (shift_pos k m).
  rewrite shift_pos_correct, Z.pow_pos_fold. lia.
Qed.

Lemma shr_iter (m k : positive) :
  SpecFloat.iter_pos shr_1 k (Build_shr_record (Z.pos (Pos.iter xO m k)) false false) =
  Build_shr_record (Z.pos m) false false.
Proof.
  revert m. induction k as [k IH|k IH|]; intros m; simpl.
  - rewrite !IH. reflexivity.
  - rewrite !IH. reflexivity.
  - reflexivity.
Qed.

Lemma size_bounds (p : positive) : 2 ^ Z.pos (Pos.size p) <= 2 * Z.pos p < 2 * 2 ^ Z.pos (Pos.size p).
Proof.
  pose proof (Pos.size_gt p) as Hgt. pose proof (Pos.size_le p) as Hle.
  apply Pos2Z.pos_lt_pos in Hgt. apply Pos2Z.pos_le_pos in Hle.
  rewrite Pos2Z.inj_pow in Hgt, Hle. change (Z.pos p~0) with (2 * Z.pos p) in Hle.
  lia.
Qed.

Lemma shr_fexp_exact (m : positive) (e : Z) :
  Pos.size m = 53%positive -> -1074 <= e ->
  shr_fexp prec emax (Z.pos m) e loc_Exact =
  (Build_shr_record (Z.pos m) false false, e).
Proof.
  intros Hm He. unfold shr_fexp, fexp, emin, Zdigits2.
  rewrite digits2_size, Hm. change prec with 53. change emax with 1024.
  replace (Z.max (53 + e - 53) (3 - 1024 - 53) - e) with 0 by lia.
  reflexivity.
Qed.

Lemma shr_fexp_shift (m k : positive) (e : Z) :
  Pos.size m = 53%positive -> -1074 <= e + Z.pos k ->
  shr_fexp prec emax (Z.pos (Pos.iter xO m k)) e loc_Exact =
  (Build_shr_record (Z.pos m) false false, e + Z.pos k).
Proof.
  intros Hm He. unfold shr_fexp, fexp, emin, Zdigits2.
  rewrite digits2_size, size_iter, Hm. change prec with 53. change emax with 1024.
  replace (Z.max (Z.pos (53 + k) + e - 53) (3 - 1024 - 53) - e) with (Z.pos k) by lia.
  unfold shr, shr_record_of_loc. rewrite shr_iter. reflexivity.
Qed.

Lemma round_tail (s : bool) (m : positive) (e : Z) :
  Pos.size m = 53%positive -> -1074 <= e <= 971 ->
  (let '(mrs'', e'') :=
     shr_fexp prec emax
       (round_nearest_even (shr_m (Build_shr_record (Z.pos m) false false))
          (loc_of_shr_record (Build_shr_record (Z.pos m) false false))) e loc_Exact in
   match shr_m mrs'' with
   | 0 => S754_zero s
   | Z.pos m0 => if e'' <=? emax - prec then S754_finite s m0 e'' else S754_infinity s
   | Z.neg _ => S754_nan
   end) = S754_finite s m e.
Proof.
  intros Hm He. cbn [shr_m loc_of_shr_record round_nearest_even].
  rewrite shr_fexp_exact by lia. cbn [shr_m].
  change (emax - prec) with 971.
  destruct (Z.leb_spec e 971); [reflexivity|lia].
Qed.

Lemma round_canonical (s : bool) (m : positive) (e : Z) :
  Pos.size m = 53%positive -> -1074 <= e <= 971 ->
  binary_round_aux prec emax s (Z.pos m) e loc_Exact = S754_finite s m e.
Proof.
  intros Hm He. unfold binary_round_aux.
  rewrite shr_fexp_exact by lia. apply round_tail; assumption.
Qed.

Lemma round_shift (s : bool) (m k : positive) (e : Z) :
  Pos.size m = 53%positive -> -1074 <= e + Z.pos k <= 971 ->
  binary_round_aux prec emax s (Z.pos (Pos.iter xO m k)) e loc_Exact =
  S754_finite s m (e + Z.pos k).
Proof.
  intros Hm He. unfold binary_round_aux.
  rewrite shr_fexp_shift by lia. apply round_tail; assumption.
Qed.

Lemma mant53_size (p : positive) :
  Z.pos (Pos.size p) <= 53 -> Pos.size (mant53 p) = 53%positive.
Proof.
  intros H. unfold mant53. destruct (53 - Z.pos (Pos.size p)) as [|k|k] eqn:E.
  - lia.
  - rewrite size_iter. lia.
  - lia.
Qed.

Lemma mant53_value (p : positive) :
  Z.pos (Pos.size p) <= 53 ->
  Z.pos (mant53 p) = Z.pos p * 2 ^ (53 - Z.pos (Pos.size p)).
Proof.
  intros H. unfold mant53. destruct (53 - Z.pos (Pos.size p)) as [|k|k] eqn:E.
  - lia.
  - apply iter_value.
  - lia.
Qed.

(** An integer below [2^53] is a binary64 number. *)
Lemma normalize_int (s : bool) (p : positive) :
  Z.pos (Pos.size p) <= 53 ->
  binary_round prec emax s p 0 = S754_finite s (mant53 p) (Z.pos (Pos.size p) - 53).
Proof.
  intros H. unfold binary_round, shl_align, fexp, emin.
  rewrite digits2_size. change prec with 53. change emax with 1024.
  replace (Z.max (Z.pos (Pos.size p) + 0 - 53) (3 - 1024 - 53) - 0)
    with (Z.pos (Pos.size p) - 53) by lia.
  replace (Z.max (Z.pos (Pos.size p) + 0 - 53) (3 - 1024 - 53))
    with (Z.pos (Pos.size p) - 53) by lia.
  unfold mant53.
  destruct (Z.pos (Pos.size p) - 53) as [|k|k] eqn:E.
  - replace (53 - Z.pos (Pos.size p)) with 0 by lia.
    apply round_canonical; lia.
  - lia.
  - replace (53 - Z.pos (Pos.size p)) with (Z.pos k) by lia.
    apply round_canonical; [|lia]. rewrite size_iter. lia.
Qed.

Lemma size_le_53 (p : positive) : Z.pos p < 2 ^ 53 -> Z.pos (Pos.size p) <= 53.
Proof.
  intros H. pose proof (size_bounds p) as [Hlo _].
  destruct (Z.le_gt_cases (Z.pos (Pos.size p)) 53) as [|Hgt]; [assumption|].
  assert (2 ^ 54 <= 2 ^ Z.pos (Pos.size p)) by (apply Z.pow_le_mono_r; lia).
  change (2 ^ 54) with (2 * 2 ^ 53) in *. lia.
Qed.

Lemma valid_int (s : bool) (p : positive) :
  Z.pos (Pos.size p) <= 53 ->
  valid_binary (S754_finite s (mant53 p) (Z.pos (Pos.size p) - 53)) = true.
Proof.
  intros H. unfold SpecFloat.valid_binary, bounded, canonical_mantissa, fexp, emin.
  rewrite digits2_size, mant53_size by assumption.
  change prec with 53. change emax with 1024.
  apply andb_true_intro. split.
  - apply Z.eqb_eq. lia.
  - apply Z.leb_le. lia.
Qed.

Lemma Prim2SF_Z2number_pos (p : positive) :
  Z.pos p < 2 ^ 53 ->
  Prim2SF (Z2number (Z.pos p)) =
  S754_finite false (mant53 p) (Z.pos (Pos.size p) - 53).
Proof.
  intros H. pose proof (size_le_53 p H) as Hs.
  unfold Z2number, binary_normalize. rewrite normalize_int by assumption.
  apply Prim2SF_SF2Prim, valid_int, Hs.
Qed.

Lemma Prim2SF_Z2number_neg (p : positive) :
  Z.pos p < 2 ^ 53 ->
  Prim2SF (Z2number (Z.neg p)) =
  S754_finite true (mant53 p) (Z.pos (Pos.size p) - 53).
Proof.
  intros H. pose proof (size_le_53 p H) as Hs.
  unfold Z2number, binary_normalize. rewrite normalize_int by assumption.
  apply Prim2SF_SF2Prim, valid_int, Hs.
Qed.

Lemma Prim2SF_1e6 : Prim2SF 1e6%float = S754_finite false 8589934592000000 (-33).
Proof. vm_compute. reflexivity. Qed.

(** The mantissa of [p * 10^6] is the product of the mantissas of [p] and
    of [10^6], shifted. *)
Lemma mant53_scaled (p : positive) :
  Z.pos (p * 1000000) < 2 ^ 53 ->
  exists k,
    (mant53 p * 8589934592000000)%positive = Pos.iter xO (mant53 (p * 1000000)) k /\
    Z.pos (Pos.size p) - 53 + -33 + Z.pos k = Z.pos (Pos.size (p * 1000000)) - 53.
Proof.
  intros H.
  assert (Z.pos p < 2 ^ 53) as Hp by lia.
  pose proof (size_le_53 _ H) as HD. pose proof (size_le_53 _ Hp) as Hd.
  pose proof (size_bounds p) as [Hlo _].
  pose proof (size_bounds (p * 1000000)) as [_ Hhi].
  set (d := Z.pos (Pos.size p)) in *. set (D := Z.pos (Pos.size (p * 1000000))) in *.
  assert (d + 19 <= D) as Hdd.
  { destruct (Z.le_gt_cases (d + 19) D) as [|Hgt]; [assumption|exfalso].
    assert (2 ^ (D + 1) <= 2 ^ (d + 19)) as Hpow by (apply Z.pow_le_mono_r; lia).
    rewrite !Z.pow_add_r in Hpow by lia.
    change (2 ^ 19) with 524288 in Hpow. change (2 ^ 1) with 2 in Hpow.
    rewrite Pos2Z.inj_mul in Hhi.
    generalize dependent (2 ^ D). generalize dependent (2 ^ d). intros.
    clear - Hlo Hhi Hpow. lia. }
  assert (0 < D - d + 33) as Hk by lia.
  exists (Z.to_pos (D - d + 33)). split.
  - apply Pos2Z.inj. rewrite Pos2Z.inj_mul, iter_value, !mant53_value by assumption.
    fold d D. rewrite Z2Pos.id by lia. rewrite Pos2Z.inj_mul.
    change (Z.pos 8589934592000000) with (1000000 * 2 ^ 33).
    assert (2 ^ (53 - d) * 2 ^ 33 = 2 ^ (53 - D) * 2 ^ (D - d + 33)) as Hpw
      by (rewrite <- !Z.pow_add_r by lia; f_equal; lia).
    replace (Z.pos p * 2 ^ (53 - d) * (1000000 * 2 ^ 33))
      with (Z.pos p * 1000000 * (2 ^ (53 - d) * 2 ^ 33)) by ring.
    rewrite Hpw. ring.
  - rewrite Z2Pos.id by lia. lia.
Qed.

Lemma mul_1e6_exact (n : Z) :
  Z.abs n * 1000000 < 2 ^ 53 ->
  (Z2number n * 1e6)%float = Z2number (n * 1000000).
Proof.
  intros H. apply Prim2SF_inj. rewrite mul_spec, Prim2SF_1e6.
  destruct n as [|p|p].
  - reflexivity.
  - assert (Z.pos (p * 1000000) < 2 ^ 53) as Hq by (rewrite Pos2Z.inj_mul; lia).
    change (Z.pos p * 1000000) with (Z.pos (p * 1000000)).
    rewrite !Prim2SF_Z2number_pos by lia.
    destruct (mant53_scaled p Hq) as (k & Hm & He).
    unfold SF64mul, SFmul. rewrite Hm, round_shift.
    + rewrite He. reflexivity.
    + apply mant53_size, size_le_53, Hq.
    + pose proof (size_le_53 _ Hq). lia.
  - assert (Z.pos (p * 1000000) < 2 ^ 53) as Hq by (rewrite Pos2Z.inj_mul; lia).
    change (Z.neg p * 1000000) with (Z.neg (p * 1000000)).
    rewrite !Prim2SF_Z2number_neg by lia.
    destruct (mant53_scaled p Hq) as (k & Hm & He).
    unfold SF64mul, SFmul. rewrite Hm, round_shift.
    + rewrite He. reflexivity.
    + apply mant53_size, size_le_53, Hq.
    + pose proof (size_le_53 _ Hq). lia.
Qed.

End Numbers.

(** ** Printing integers

    [Number.toString] on an integer below [2^53] in absolute value gives its
    decimal numeral. *)
Section Printing.

(** strings *)
Lemma string_app_assoc (a b c : string) : ((a ++ b) ++ c = a ++ (b ++ c))%string.
Proof. induction a; simpl; congruence. Qed.

Lemma string_app_nil_r (a : string) : (a ++ "" = a)%string.
Proof. induction a; simpl; congruence. Qed.

Lemma zeros_snoc (j : nat) : (Number.zeros j ++ "0" = Number.zeros (Datatypes.S j))%string.
Proof. induction j; simpl in *; congruence. Qed.

Lemma uint_app_string (d d' : Decimal.uint) :
  NilEmpty.string_of_uint (Decimal.app d d') =
  (NilEmpty.string_of_uint d ++ NilEmpty.string_of_uint d')%string.
Proof.
  induction d; simpl;
    [rewrite DecimalFacts.app_nil_l; reflexivity| ..];
    match goal with
    | |- NilEmpty.string_of_uint (Decimal.app (?D d) d') = _ =>
        replace (Decimal.app (D d) d') with (D (Decimal.app d d'))
          by (apply DecimalFacts.to_list_inj; simpl;
              rewrite !DecimalFacts.app_spec; reflexivity)
    end; simpl; rewrite IHd; reflexivity.
Qed.

Lemma to_uint_tenfold (p : positive) :
  Pos.to_uint (10 * p) = Decimal.app (Pos.to_uint p) (Decimal.D0 Decimal.Nil).
Proof.
  unfold Pos.to_uint, Decimal.app. rewrite DecimalFacts.rev_rev.
  pose proof (DecimalPos.Unsigned.to_ldec_tenfold p) as H.
  change (Pos.to_little_uint (10 * p) = Decimal.D0 (Pos.to_little_uint p)) in H.
  rewrite H. reflexivity.
Qed.

Lemma nilzero_nonnil (d : Decimal.uint) :
  d <> Decimal.Nil -> NilZero.string_of_uint d = NilEmpty.string_of_uint d.
Proof. destruct d; intros H; try reflexivity. congruence. Qed.

Lemma decimal_tenfold (s : Z) :
  0 < s -> Number.decimal (s * 10) = (Number.decimal s ++ "0")%string.
Proof.
  intros Hs. destruct s as [|q|q]; try lia.
  unfold Number.decimal.
  change (Z.to_N (Z.pos q * 10)) with (N.pos (q * 10)).
  rewrite Pos.mul_comm. simpl N.to_uint. simpl Z.to_N.
  rewrite !nilzero_nonnil by apply DecimalPos.Unsigned.to_uint_nonnil.
  rewrite to_uint_tenfold, uint_app_string. reflexivity.
Qed.

Lemma decimal_pow10 (s : Z) (j : nat) :
  0 < s ->
  Number.decimal (s * 10 ^ Z.of_nat j) = (Number.decimal s ++ Number.zeros j)%string.
Proof.
  intros Hs. induction j as [|j IH].
  - simpl. rewrite Z.mul_1_r, string_app_nil_r. reflexivity.
  - rewrite Nat2Z.inj_succ, Z.pow_succ_r by lia.
    replace (s * (10 * 10 ^ Z.of_nat j)) with (s * 10 ^ Z.of_nat j * 10) by ring.
    rewrite decimal_tenfold by (apply Z.mul_pos_pos; [lia|apply Z.pow_pos_nonneg; lia]).
    rewrite IH, string_app_assoc, zeros_snoc. reflexivity.
Qed.

(** comparisons with an integer value [n = m * 2^e], [e <= 0] *)
Lemma compare_scaled_int (s p c q : Z) :
  0 <= p -> q <= 0 ->
  Number.compare_scaled s p c q = (s * 10 ^ p * 2 ^ (- q) ?= c).
Proof.
  intros Hp Hq. unfold Number.compare_scaled.
  rewrite (Z.max_l p 0), (Z.max_l (- q) 0), (Z.max_r q 0), (Z.max_r (- p) 0) by lia.
  rewrite !Z.pow_0_r, !Z.mul_1_r. reflexivity.
Qed.

Lemma floor_scaled_int (n T e p : Z) :
  0 <= p -> e <= 0 -> T = 2 ^ (- e) ->
  Number.floor_scaled (n * T) e p = n / 10 ^ p.
Proof.
  intros Hp He ->. unfold Number.floor_scaled.
  rewrite (Z.max_r e 0), (Z.max_r (- p) 0), (Z.max_l (- e) 0), (Z.max_l p 0) by lia.
  rewrite !Z.pow_0_r, !Z.mul_1_r.
  rewrite (Z.mul_comm n), Z.div_mul_cancel_l; [reflexivity| |].
  - apply Z.pow_nonzero; lia.
  - apply Z.pow_nonzero; lia.
Qed.

Lemma rounds_to_int (n e s p : Z) :
  0 < n -> e <= 0 -> 0 <= p ->
  Number.rounds_to (n * 2 ^ (- e)) e s p = (s * 10 ^ p =? n).
Proof.
  intros Hn He Hp. unfold Number.rounds_to.
  rewrite !compare_scaled_int by lia.
  replace (- (e - 2)) with (- e + 2) by lia. rewrite Z.pow_add_r by lia.
  change (2 ^ 2) with 4.
  assert (0 < 2 ^ (- e)) as HT by (apply Z.pow_pos_nonneg; lia).
  set (T := 2 ^ (- e)) in *. set (c := s * 10 ^ p).
  set (lo := if (n * T =? 2 ^ 52) && (-1074 <? e) then 4 * (n * T) - 1
             else 4 * (n * T) - 2).
  assert (4 * (n * T) - 2 <= lo <= 4 * (n * T) - 1) as Hlo
    by (unfold lo; destruct ((n * T =? 2 ^ 52) && (-1074 <? e)); lia).
  clearbody lo.
  destruct (Z.eqb_spec c n) as [->|Hne].
  - assert ((n * (T * 4) ?= lo) = Gt) as -> by (apply Z.compare_gt_iff; nia).
    assert ((n * (T * 4) ?= 4 * (n * T) + 2) = Lt) as -> by (apply Z.compare_lt_iff; nia).
    reflexivity.
  - destruct (Z.lt_ge_cases c n) as [Hlt|Hge].
    + assert ((c * (T * 4) ?= lo) = Lt) as -> by (apply Z.compare_lt_iff; nia).
      reflexivity.
    + assert ((c * (T * 4) ?= lo) = Gt) as -> by (apply Z.compare_gt_iff; nia).
      assert ((c * (T * 4) ?= 4 * (n * T) + 2) = Gt) as -> by (apply Z.compare_gt_iff; nia).
      reflexivity.
Qed.

(** the decade *)
Lemma decade_from_spec (n e : Z) (fuel : nat) :
  0 < n -> e <= 0 ->
  forall j J,
    -1 <= j <= J -> J <= j + Z.of_nat fuel -> n < 10 ^ J ->
    let r := Number.decade_from fuel (n * 2 ^ (- e)) e j in
    1 <= r <= J /\ n < 10 ^ r.
Proof.
  intros Hn He. assert (0 < 2 ^ (- e)) as HT by (apply Z.pow_pos_nonneg; lia).
  induction fuel as [|fuel IH]; intros j J Hj HJ Hlt; cbn zeta.
  - simpl. assert (j = J) as -> by lia. split; [|exact Hlt].
    split; [|lia]. destruct (Z.le_gt_cases 1 J) as [|Hgt]; [assumption|exfalso].
    assert (J = 0 \/ J = -1) as [->| ->] by lia; simpl in Hlt; lia.
  - cbn [Number.decade_from].
    destruct (Z.eq_dec j (-1)) as [->|Hj'].
    + assert ((Number.compare_scaled 1 (-1) (n * 2 ^ (- e)) e) = Lt) as ->.
      { unfold Number.compare_scaled.
        rewrite (Z.max_r (-1) 0), (Z.max_l (- e) 0), (Z.max_r e 0) by lia.
        change (Z.max (- -1) 0) with 1. rewrite !Z.pow_0_r.
        apply Z.compare_lt_iff. change (10 ^ 1) with 10. nia. }
      assert (J <> -1) by (intros ->; simpl in Hlt; lia).
      apply IH; [lia|lia|assumption].
    + rewrite compare_scaled_int by lia.
      destruct (Z.compare_spec (1 * 10 ^ j * 2 ^ (- e)) (n * 2 ^ (- e))) as [Heq|Hl|Hg].
      * assert (10 ^ j = n) by nia.
        assert (j <> J) by (intros ->; lia). apply IH; [lia|lia|assumption].
      * assert (10 ^ j < n) by nia.
        assert (j <> J) by (intros ->; lia). apply IH; [lia|lia|assumption].
      * assert (n < 10 ^ j) as Hnj by nia. split; [|exact Hnj]. split; [|lia].
        destruct (Z.le_gt_cases 1 j) as [|Hgt]; [assumption|exfalso].
        assert (j = 0) as -> by lia. simpl in Hnj. lia.
Qed.

Lemma decade_check_ok (L : Z) : 0 <= L <= 52 -> decade_check L = true.
Proof.
  intros HL.
  assert (forallb decade_check (map Z.of_nat (seq 0 53)) = true) as H
    by (vm_compute; reflexivity).
  rewrite forallb_forall in H. apply H.
  apply in_map_iff. exists (Z.to_nat L). split; [lia|]. apply in_seq. lia.
Qed.

Lemma decade_int (p : positive) :
  Z.pos p < 2 ^ 53 ->
  let nx := Number.decade (Z.pos (mant53 p)) (Z.pos (Pos.size p) - 53) in
  1 <= nx <= 16 /\ Z.pos p < 10 ^ nx.
Proof.
  intros Hp. cbn zeta. pose proof (size_le_53 p Hp) as Hs.
  pose proof (size_bounds p) as [Hlo Hhi].
  pose proof (mant53_value p Hs) as Hm.
  set (e := Z.pos (Pos.size p) - 53) in *.
  replace (53 - Z.pos (Pos.size p)) with (- e) in Hm by (unfold e; lia).
  assert (0 < 2 ^ (- e)) as HT by (apply Z.pow_pos_nonneg; unfold e; lia).
  assert (Z.log2 (Z.pos (mant53 p)) = 52) as Hlog.
  { apply Z.log2_unique; [lia|].
    pose proof (size_bounds (mant53 p)) as [Hl Hh].
    rewrite (mant53_size p Hs) in Hl, Hh. change (2 ^ (52 + 1)) with (2 ^ 53).
    change (2 ^ 53) with (2 * 2 ^ 52) in *. lia. }
  unfold Number.decade. rewrite Hlog, Hm.
  set (L := e + 52).
  assert (0 <= L <= 52) as HL by (unfold L, e; lia).
  pose proof (decade_check_ok L HL) as Hc. unfold decade_check in Hc. cbn zeta in Hc.
  apply andb_prop in Hc. destruct Hc as [Hc H3]. apply andb_prop in Hc.
  destruct Hc as [H1 H2]. apply Z.leb_le in H1, H2, H3.
  assert (Z.pos p < 2 ^ (L + 1)) as Hn.
  { replace (L + 1) with (Z.pos (Pos.size p)) by (unfold L, e; lia). lia. }
  destruct (decade_from_spec (Z.pos p) e 4 ltac:(lia) ltac:(unfold e; lia)
              (L * 30103 / 100000 - 1) (Z.min (L * 30103 / 100000 - 1 + 4) 16))
    as [Hr Hlt]; try lia.
Qed.

(** the digit search *)
Lemma shortest_from_int (n e nx : Z) :
  0 < n -> e <= 0 -> n < 10 ^ nx ->
  forall (fuel : nat) (k : Z),
    1 <= k <= nx -> nx - k < Z.of_nat fuel ->
    exists s k',
      Number.shortest_from fuel (n * 2 ^ (- e)) e nx k = (s, k', nx) /\
      k <= k' <= nx /\ s * 10 ^ (nx - k') = n.
Proof.
  intros Hn He Hnx. induction fuel as [|fuel IH]; intros k Hk Hfuel; [lia|].
  cbn [Number.shortest_from]. cbn zeta.
  rewrite (floor_scaled_int n (2 ^ (- e)) e (nx - k)) by (try reflexivity; lia).
  rewrite !rounds_to_int by lia.
  set (p := nx - k) in *.
  assert (0 < 10 ^ p) as Hpow by (apply Z.pow_pos_nonneg; lia).
  pose proof (Z.div_mod n (10 ^ p) ltac:(lia)) as Hdm.
  pose proof (Z.mod_pos_bound n (10 ^ p) Hpow) as Hmod.
  set (s0 := n / 10 ^ p) in *.
  assert (((s0 + 1) * 10 ^ p =? n) = false) as -> by (apply Z.eqb_neq; nia).
  destruct (Z.eqb_spec (s0 * 10 ^ p) n) as [Heq|Hne].
  - assert ((s0 =? 10 ^ k) = false) as ->.
    { apply Z.eqb_neq. intros Hs0.
      assert (10 ^ nx = 10 ^ k * 10 ^ p)
        by (rewrite <- Z.pow_add_r by lia; f_equal; lia).
      nia. }
    exists s0, k. split; [reflexivity|]. split; [lia|exact Heq].
  - assert (p <> 0) as Hp0 by (intros Hp; rewrite Hp in *; simpl in *; nia).
    destruct (IH (k + 1)) as (s & k' & Hrun & Hk' & Hs); [lia|lia|].
    exists s, k'. split; [exact Hrun|]. split; [lia|exact Hs].
Qed.

Lemma format_int (s k nx : Z) :
  0 < s -> 1 <= k <= nx -> nx <= 16 ->
  Number.format s k nx = Number.decimal (s * 10 ^ (nx - k)).
Proof.
  intros Hs Hk Hnx. unfold Number.format.
  assert ((k <=? nx) && (nx <=? 21) = true) as ->
    by (apply andb_true_intro; split; apply Z.leb_le; lia).
  rewrite <- (Z2Nat.id (nx - k)) at 2 by lia.
  rewrite decimal_pow10 by assumption. reflexivity.
Qed.

Lemma toString_pos (p : positive) :
  Z.pos p < 2 ^ 53 ->
  Number.toString (Z2number (Z.pos p)) = Number.decimal (Z.pos p).
Proof.
  intros Hp. unfold Number.toString. rewrite (Prim2SF_Z2number_pos p Hp).
  pose proof (size_le_53 p Hp) as Hs.
  destruct (decade_int p Hp) as [Hnx Hlt].
  unfold Number.shortest.
  set (nx := Number.decade (Z.pos (mant53 p)) (Z.pos (Pos.size p) - 53)) in *.
  set (e := Z.pos (Pos.size p) - 53) in *.
  assert (Z.pos (mant53 p) = Z.pos p * 2 ^ (- e)) as Hm.
  { rewrite (mant53_value p Hs). f_equal. f_equal. unfold e. lia. }
  rewrite Hm.
  destruct (shortest_from_int (Z.pos p) e nx ltac:(lia) ltac:(unfold e; lia) Hlt
              17 1 ltac:(lia) ltac:(lia))
    as (s & k' & Hrun & Hk' & Hval).
  rewrite Hrun. simpl append.
  assert (0 < s).
  { assert (0 < 10 ^ (nx - k')) by (apply Z.pow_pos_nonneg; lia). nia. }
  rewrite format_int by lia. rewrite Hval. reflexivity.
Qed.

Lemma toString_neg (p : positive) :
  Z.pos p < 2 ^ 53 ->
  Number.toString (Z2number (Z.neg p)) = ("-" ++ Number.decimal (Z.pos p))%string.
Proof.
  intros Hp. unfold Number.toString. rewrite (Prim2SF_Z2number_neg p Hp).
  pose proof (size_le_53 p Hp) as Hs.
  destruct (decade_int p Hp) as [Hnx Hlt].
  unfold Number.shortest.
  set (nx := Number.decade (Z.pos (mant53 p)) (Z.pos (Pos.size p) - 53)) in *.
  set (e := Z.pos (Pos.size p) - 53) in *.
  assert (Z.pos (mant53 p) = Z.pos p * 2 ^ (- e)) as Hm.
  { rewrite (mant53_value p Hs). f_equal. f_equal. unfold e. lia. }
  rewrite Hm.
  destruct (shortest_from_int (Z.pos p) e nx ltac:(lia) ltac:(unfold e; lia) Hlt
              17 1 ltac:(lia) ltac:(lia))
    as (s & k' & Hrun & Hk' & Hval).
  rewrite Hrun.
  assert (0 < s).
  { assert (0 < 10 ^ (nx - k')) by (apply Z.pow_pos_nonneg; lia). nia. }
  rewrite format_int by lia. rewrite Hval. reflexivity.
Qed.

(** An integer below [2^53] in absolute value prints as its decimal
    numeral. *)
Lemma toString_integer (n : Z) :
  Z.abs n < 2 ^ 53 ->
  Number.toString (Z2number n) =
  String.append (if n <? 0 then "-" else "") (Number.decimal (Z.abs n)).
Proof.
  intros Hn. destruct n as [|p|p].
  - vm_compute. reflexivity.
  - rewrite toString_pos by exact Hn. reflexivity.
  - rewrite toString_neg by exact Hn. reflexivity.
Qed.

End Printing.

Section Monad.

Context {P : Platform}.

Lemma try_catch_throw {A} (m : M A) (w : World) : try_catch m throw w = m w.
Proof. unfold try_catch, throw. destruct (m w) as [[x|e] w']; reflexivity. Qed.

Lemma length_snoc (w : World) (e : Event) : length (w ++ [e]) = Datatypes.S (length w).
Proof. rewrite length_app. simpl. lia. Qed.

Lemma events_app {A} (m : M A) (w : World) (evs : list Event) :
  snd (m w) = w ++ evs -> events m w = evs.
Proof. intros H. unfold events. rewrite H. apply drop_app_length. Qed.

(** Mapping a pure function over the results of [Promise.all]. *)
Lemma settle_all_bind_ret {A B C} (st : nat -> nat) (f : A -> M B) (g : A -> B -> C)
    (xs : list A) :
  forall w,
    settle_all st (map (fun x => y <- f x ;; ret (g x y)) xs) w =
    match settle_all st (map f xs) w with
    | (inl ys, w') => (inl (zip_with g xs ys), w')
    | (inr e, w') => (inr e, w')
    end.
Proof.
  induction xs as [|x xs IH]; intros w; simpl; [reflexivity|].
  unfold bind at 1, ret.
  destruct (f x w) as [[y|e] w1]; rewrite IH;
    destruct (settle_all st (map f xs) w1) as [[ys|[m e']] w2]; try reflexivity.
  destruct (m <? st (length w))%nat; reflexivity.
Qed.

Lemma Promise_all_bind_ret {A B C} (st : nat -> nat) (f : A -> M B) (g : A -> B -> C)
    (xs : list A) :
  forall w,
    Promise_all st (map (fun x => y <- f x ;; ret (g x y)) xs) w =
    match Promise_all st (map f xs) w with
    | (Ok ys, w') => (Ok (zip_with g xs ys), w')
    | (Throw e, w') => (Throw e, w')
    end.
Proof.
  intros w. unfold Promise_all. rewrite settle_all_bind_ret.
  destruct (settle_all st (map f xs) w) as [[ys|[m e]] w']; reflexivity.
Qed.

End Monad.

Section Runs.

Context {P : Platform} {S : Signing}.
Variable clock : nat -> Z.
Variable this : ExchangeAPI.

Local Abbreviation dir := (sc_getAssetIndex (symbolConversion this)).

Lemma getAssetIndex_run (s : string) (w : World) :
  getAssetIndex this s w =
  (match dir (length w) s with
   | Some i => Ok i
   | None => Throw (Error ("Unknown asset: " ++ s)%string)
   end,
   w ++ [EvResolve s (dir (length w) s)]).
Proof.
  unfold getAssetIndex, bind, symbolConversion_getAssetIndex, outside.
  destruct (dir (length w) s); reflexivity.
Qed.

Lemma length_resolve_events (syms : list string) (k : nat) :
  length (resolve_events syms (answers this k syms)) = length syms.
Proof.
  revert k. induction syms as [|s syms IH]; intros k; simpl; [reflexivity|].
  f_equal. apply IH.
Qed.

Lemma resolved_length (ans : list (option Z)) (l : list Z) :
  resolved ans = Some l -> length l = length ans.
Proof.
  revert l. induction ans as [|[i|] ans IH]; intros l H; simpl in H.
  - injection H as <-. reflexivity.
  - destruct (resolved ans) as [l'|]; [|discriminate].
    injection H as <-. simpl. f_equal. apply IH. reflexivity.
  - discriminate.
Qed.

Lemma resolved_answers (ans : list (option Z)) (l : list Z) :
  resolved ans = Some l -> ans = map Some l.
Proof.
  revert l. induction ans as [|[i|] ans IH]; intros l H; simpl in H.
  - injection H as <-. reflexivity.
  - destruct (resolved ans) as [l'|]; [|discriminate].
    injection H as <-. simpl. f_equal. apply IH. reflexivity.
  - discriminate.
Qed.

Lemma answers_length (k : nat) (syms : list string) :
  length (answers this k syms) = length syms.
Proof.
  revert k. induction syms as [|s syms IH]; intros k; simpl; [reflexivity|].
  f_equal. apply IH.
Qed.

Lemma unresolved_first_unknown (k : nat) (syms : list string) :
  resolved (answers this k syms) = None ->
  exists s, first_unknown this k syms = Some s.
Proof.
  unfold first_unknown.
  revert k. induction syms as [|s syms IH]; intros k; simpl; [discriminate|].
  destruct (dir k s) as [i|].
  - destruct (resolved (answers this (Datatypes.S k) syms)) eqn:E; [discriminate|].
    intros _. apply (IH _ E).
  - intros _. destruct (first_settled_unknown this (Datatypes.S k) syms) as [[m s']|];
      [destruct (m <? _)%nat|]; simpl; eauto.
Qed.

Lemma resolved_no_unknown (k : nat) (syms : list string) (l : list Z) :
  resolved (answers this k syms) = Some l ->
  first_settled_unknown this k syms = None.
Proof.
  revert k l. induction syms as [|s syms IH]; intros k l; simpl; [reflexivity|].
  destruct (dir k s) as [i|]; [|discriminate].
  destruct (resolved (answers this (Datatypes.S k) syms)) as [l'|] eqn:E; [|discriminate].
  intros _. apply (IH _ _ E).
Qed.

Lemma first_unknown_single (k : nat) (s : string) :
  dir k s = None -> first_unknown this k [s] = Some s.
Proof. intros E. unfold first_unknown. simpl. rewrite E. reflexivity. Qed.

(** [Promise.all] over [getAssetIndex]: every symbol is asked for, in
    order; the values are the answers by position, or the rejection is the
    one for the symbol whose lookup is the first to settle without an
    answer. *)
Lemma settle_all_resolve (syms : list string) :
  forall w,
    settle_all (sc_settles (symbolConversion this)) (map (getAssetIndex this) syms) w =
    (match resolved (answers this (length w) syms) with
     | Some l => inl l
     | None =>
         match first_settled_unknown this (length w) syms with
         | Some (m, s) => inr (m, Error ("Unknown asset: " ++ s)%string)
         | None => inl []
         end
     end,
     w ++ resolve_events syms (answers this (length w) syms)).
Proof.
  induction syms as [|s syms IH]; intros w; simpl.
  - rewrite app_nil_r. reflexivity.
  - rewrite getAssetIndex_run, IH, length_snoc, <- app_assoc. simpl.
    destruct (dir (length w) s) as [i|]; simpl.
    + destruct (resolved (answers this (Datatypes.S (length w)) syms)) as [l|] eqn:E;
        [reflexivity|].
      destruct (unresolved_first_unknown _ _ E) as [s' Hs'].
      unfold first_unknown in Hs'.
      destruct (first_settled_unknown this (Datatypes.S (length w)) syms) as [[m s'']|];
        [reflexivity|discriminate].
    + destruct (resolved (answers this (Datatypes.S (length w)) syms)) as [l|] eqn:E.
      * rewrite (resolved_no_unknown _ _ _ E). reflexivity.
      * destruct (unresolved_first_unknown _ _ E) as [s' Hs'].
        unfold first_unknown in Hs'.
        destruct (first_settled_unknown this (Datatypes.S (length w)) syms)
          as [[m s'']|]; [|discriminate].
        destruct (m <? _)%nat; reflexivity.
Qed.

Lemma resolve_all_run (syms : list string) :
  forall w,
    Promise_all (sc_settles (symbolConversion this)) (map (getAssetIndex this) syms) w =
    (match resolved (answers this (length w) syms) with
     | Some l => Ok l
     | None =>
         Throw (Error ("Unknown asset: " ++
                       default ""%string (first_unknown this (length w) syms))%string)
     end,
     w ++ resolve_events syms (answers this (length w) syms)).
Proof.
  intros w. unfold Promise_all. rewrite settle_all_resolve.
  destruct (resolved _) as [l|] eqn:E; [reflexivity|].
  destruct (unresolved_first_unknown _ _ E) as [s Hs]. rewrite Hs.
  unfold first_unknown in Hs.
  destruct (first_settled_unknown this (length w) syms) as [[m s']|]; [|discriminate].
  injection Hs as ->. reflexivity.
Qed.

(** Entries of the two batch actions, by position. *)
Lemma cancel_entries (reqs : list CancelOrderRequest) (l : list Z) :
  map (fun c => {| a := cwi_a c; o := cwi_o c |})
      (zip_with (fun req i =>
                   {| cwi_coin := cr_coin req; cwi_o := cr_o req; cwi_a := i |})
                reqs l) =
  zip_with (fun req i => {| a := i; o := cr_o req |}) reqs l.
Proof.
  revert l. induction reqs as [|r reqs IH]; intros [|i l]; simpl; try reflexivity.
  f_equal. apply IH.
Qed.

Lemma modify_entries (ms : list ModifyRequest) (l : list Z) :
  length l = length ms ->
  imap (fun index m =>
          {| oid := mr_oid m;
             order := orderRequestToOrderWire (mr_order m) (l !! index) |}) ms =
  zip_with (fun m i =>
              {| oid := mr_oid m;
                 order := orderRequestToOrderWire (mr_order m) (Some i) |}) ms l.
Proof.
  revert l. induction ms as [|m ms IH]; intros [|i l] H; simpl in *;
    try reflexivity; try discriminate.
  f_equal. rewrite <- IH by lia. apply imap_ext. reflexivity.
Qed.

(** The tail shared by all methods, run from a world [w']. *)
Lemma finish_run sign sev build vault (w' : World) :
  finish clock this sign sev build vault w' =
  let t := clock (length w') in
  match sign (build t) t with
  | Ok sg =>
      let p := {| action := build t; nonce := t; signature := sg;
                  vaultAddress := vault |} in
      (makeRequest (httpApi this) (length w' + 2) p 1,
       w' ++ [EvNow t; sev (build t) t; EvRequest p 1])
  | Throw e => (Throw e, w' ++ [EvNow t; sev (build t) t])
  end.
Proof.
  unfold finish, bind, Date_now, httpApi_makeRequest, outside. simpl.
  destruct (sign _ _) as [sg|e]; rewrite ?length_snoc, <- ?app_assoc; simpl.
  - replace (Datatypes.S (Datatypes.S (length w'))) with (length w' + 2)%nat by lia.
    reflexivity.
  - reflexivity.
Qed.

Lemma cancel_assets (reqs : list CancelOrderRequest) (l : list Z) :
  length l = length reqs ->
  map (fun c => Some (a c)) (zip_with (fun req i => {| a := i; o := cr_o req |}) reqs l) =
  map Some l.
Proof.
  revert l. induction reqs as [|r reqs IH]; intros [|i l] H; simpl in *;
    try reflexivity; try discriminate.
  f_equal. apply IH. lia.
Qed.

Lemma modify_assets (ms : list ModifyRequest) (l : list Z) :
  wire_law P -> length l = length ms ->
  map (fun m => wire_asset (order m))
      (zip_with (fun m i =>
                   {| oid := mr_oid m;
                      order := orderRequestToOrderWire (mr_order m) (Some i) |}) ms l) =
  map Some l.
Proof.
  intros HW. revert l. induction ms as [|m ms IH]; intros [|i l] H; simpl in *;
    try reflexivity; try discriminate.
  rewrite HW. f_equal. apply IH. lia.
Qed.

(** The tail of a method that signs with the L1 scheme. *)
Lemma dispatch_L1 (act : Action) (v : option string)
    (vault : field (option string)) (w' : World) :
  (t <- Date_now clock ;;
   sg <- await_signL1Action (wallet this) act v t ;;
   httpApi_makeRequest this
     {| action := act; nonce := t; signature := sg; vaultAddress := vault |} 1) w' =
  dispatch this w' (EvSignL1 act v (clock (length w')))
    (signL1Action (wallet this) act v (clock (length w'))) act (clock (length w')) vault.
Proof.
  change (finish clock this (fun a n => signL1Action (wallet this) a v n)
            (fun a n => EvSignL1 a v n) (fun _ => act) vault w' =
          dispatch this w' (EvSignL1 act v (clock (length w')))
            (signL1Action (wallet this) act v (clock (length w'))) act
            (clock (length w')) vault).
  rewrite finish_run. unfold dispatch. simpl.
  destruct (signL1Action _ _ _ _); reflexivity.
Qed.

Tactic Notation "enter" reference(method) :=
  unfold method; rewrite try_catch_throw.

Tactic Notation "one_symbol" reference(method) ident(E) :=
  unfold method; rewrite try_catch_throw;
  unfold bind at 1; rewrite getAssetIndex_run, E;
  try apply dispatch_L1; try reflexivity.

Tactic Notation "no_symbol" reference(method) :=
  unfold method; rewrite try_catch_throw, ?app_nil_r; try apply dispatch_L1.

Tactic Notation "typed_transfer" reference(method) reference(signer) :=
  unfold method; rewrite try_catch_throw, app_nil_r;
  unfold bind, Date_now, signer, httpApi_makeRequest, outside, dispatch; simpl;
  match goal with |- context [match ?x with Ok _ => _ | Throw _ => _ end] =>
    destruct x end;
  rewrite ?length_snoc, <- ?app_assoc; simpl;
  rewrite ?Nat.add_succ_r, ?Nat.add_0_r; reflexivity.

(** The two batch methods, run from a world [w]. *)
Lemma cancelOrder_run (cancelRequests : OneOrMany CancelOrderRequest) (w : World) :
  let syms := map cr_coin (toArray cancelRequests) in
  let ans := answers this (length w) syms in
  let w' := w ++ resolve_events syms ans in
  let t := clock (length w') in
  cancelOrder clock this cancelRequests w =
  match resolved ans with
  | Some l =>
      let act :=
        CancelAct CANCEL
          (zip_with (fun req i => {| a := i; o := cr_o req |})
             (toArray cancelRequests) l) in
      dispatch this w' (EvSignL1 act None t) (signL1Action (wallet this) act None t)
        act t absent
  | None =>
      (Throw (Error ("Unknown asset: " ++
                     default ""%string (first_unknown this (length w) syms))%string), w')
  end.
Proof.
  cbn zeta. unfold cancelOrder. rewrite try_catch_throw. unfold bind at 1.
  rewrite (Promise_all_bind_ret _ (fun req => getAssetIndex this (cr_coin req))
             (fun req i => {| cwi_coin := cr_coin req; cwi_o := cr_o req; cwi_a := i |})).
  rewrite <- (map_map cr_coin (getAssetIndex this)), resolve_all_run.
  destruct (resolved _) as [l|]; [|reflexivity].
  rewrite <- cancel_entries. apply dispatch_L1.
Qed.

Lemma batchModifyOrders_run (modifies : list ModifyRequest) (w : World) :
  let syms := map (fun m => coin (mr_order m)) modifies in
  let ans := answers this (length w) syms in
  let w' := w ++ resolve_events syms ans in
  let t := clock (length w') in
  batchModifyOrders clock this modifies w =
  match resolved ans with
  | Some l =>
      let act :=
        BatchModifyAct BATCH_MODIFY
          (zip_with (fun m i =>
                       {| oid := mr_oid m;
                          order := orderRequestToOrderWire (mr_order m) (Some i) |})
             modifies l) in
      dispatch this w' (EvSignL1 act None t) (signL1Action (wallet this) act None t)
        act t absent
  | None =>
      (Throw (Error ("Unknown asset: " ++
                     default ""%string (first_unknown this (length w) syms))%string), w')
  end.
Proof.
  cbn zeta. unfold batchModifyOrders. rewrite try_catch_throw. unfold bind at 1.
  rewrite <- (map_map (fun m => coin (mr_order m)) (getAssetIndex this)),
    resolve_all_run.
  destruct (resolved _) as [l|] eqn:E; [|reflexivity].
  rewrite <- (modify_entries modifies l).
  - apply dispatch_L1.
  - rewrite (resolved_length _ _ E), answers_length, length_map. reflexivity.
Qed.

(** Every call either stops at a symbol the directory does not know (the
    one whose lookup settles first), having only asked the directory for
    all its symbols, or resolves all its symbols and
    then reads the clock once, signs once and, when the signer answers,
    dispatches once. *)
Lemma call_outcome (c : Call) (w : World) :
  let syms := symbols c in
  let ans := answers this (length w) syms in
  let w' := w ++ resolve_events syms ans in
  let t := clock (length w') in
  match resolved ans with
  | None =>
      exists s, first_unknown this (length w) syms = Some s /\
        call clock this c w = (Throw (Error ("Unknown asset: " ++ s)%string), w')
  | Some l =>
      exists act r,
        signer_answer this (sign_event_of c act t) = Some r /\
        (is_transfer c = true -> action_time act = Some t) /\
        (wire_law P -> order_action_law P -> action_assets act = map Some l) /\
        call clock this c w =
        dispatch this w' (sign_event_of c act t) r act t (vault_field c)
  end.
Proof.
  destruct c; cbn zeta; simpl symbols; simpl call.
  - (* placeOrder *)
    simpl. destruct (dir (length w) (coin orderRequest)) as [i|] eqn:E; simpl.
    + do 2 eexists. split; [reflexivity|]. split; [discriminate|]. split; [|one_symbol placeOrder E].
      intros HW HA. simpl. rewrite HA. simpl. rewrite HW. reflexivity.
    + eexists. split; [exact (first_unknown_single _ _ E)|]. one_symbol placeOrder E.
  - (* cancelOrder *)
    rewrite cancelOrder_run. cbn zeta.
    destruct (resolved _) as [l|] eqn:E.
    + do 2 eexists. split; [reflexivity|]. split; [discriminate|]. split; [|reflexivity].
      intros _ _. simpl. apply cancel_assets.
      rewrite (resolved_length _ _ E), answers_length, length_map. reflexivity.
    + destruct (unresolved_first_unknown _ _ E) as [s Hs].
      exists s. split; [exact Hs|]. rewrite Hs. reflexivity.
  - (* cancelOrderByCloid *)
    simpl. destruct (dir (length w) symbol) as [i|] eqn:E; simpl.
    + do 2 eexists. split; [reflexivity|]. split; [discriminate|]. split; [|one_symbol cancelOrderByCloid E].
      reflexivity.
    + eexists. split; [exact (first_unknown_single _ _ E)|]. one_symbol cancelOrderByCloid E.
  - (* modifyOrder *)
    simpl. destruct (dir (length w) (coin orderRequest)) as [i|] eqn:E; simpl.
    + do 2 eexists. split; [reflexivity|]. split; [discriminate|]. split; [|one_symbol modifyOrder E].
      intros HW _. simpl. rewrite HW. reflexivity.
    + eexists. split; [exact (first_unknown_single _ _ E)|]. one_symbol modifyOrder E.
  - (* batchModifyOrders *)
    rewrite batchModifyOrders_run. cbn zeta.
    destruct (resolved _) as [l|] eqn:E.
    + do 2 eexists. split; [reflexivity|]. split; [discriminate|]. split; [|reflexivity].
      intros HW _. simpl. apply modify_assets; [assumption|].
      rewrite (resolved_length _ _ E), answers_length, length_map. reflexivity.
    + destruct (unresolved_first_unknown _ _ E) as [s Hs].
      exists s. split; [exact Hs|]. rewrite Hs. reflexivity.
  - (* updateLeverage *)
    simpl. destruct (dir (length w) symbol) as [i|] eqn:E; simpl.
    + do 2 eexists. split; [reflexivity|]. split; [discriminate|]. split; [|one_symbol updateLeverage E].
      reflexivity.
    + eexists. split; [exact (first_unknown_single _ _ E)|]. one_symbol updateLeverage E.
  - (* updateIsolatedMargin *)
    simpl. destruct (dir (length w) symbol) as [i|] eqn:E; simpl.
    + do 2 eexists. split; [reflexivity|]. split; [discriminate|]. split; [|one_symbol updateIsolatedMargin E].
      reflexivity.
    + eexists. split; [exact (first_unknown_single _ _ E)|]. one_symbol updateIsolatedMargin E.
  - (* usdTransfer *)
    simpl.
    exists (SendAct USD_SEND (chainName IS_MAINNET) "0xa4b1" destination
              (Number.toString amount) (clock (length (w ++ [])))).
    eexists. split; [reflexivity|]. split; [reflexivity|]. split; [reflexivity|].
    typed_transfer usdTransfer await_signUsdTransferAction.
  - (* spotTransfer *)
    simpl.
    exists (SpotSendAct SPOT_SEND (chainName IS_MAINNET) "0xa4b1" destination token
              amount (clock (length (w ++ [])))).
    eexists. split; [reflexivity|]. split; [reflexivity|]. split; [reflexivity|].
    typed_transfer spotTransfer await_signUserSignedAction.
  - (* initiateWithdrawal *)
    simpl.
    exists (SendAct WITHDRAW (chainName IS_MAINNET) "0xa4b1" destination
              (Number.toString amount) (clock (length (w ++ [])))).
    eexists. split; [reflexivity|]. split; [reflexivity|]. split; [reflexivity|].
    typed_transfer initiateWithdrawal await_signWithdrawFromBridgeAction.
  - simpl. do 2 eexists. split; [reflexivity|]. split; [discriminate|]. split;
      [|no_symbol transferBetweenSpotAndPerp]. reflexivity.
  - simpl. do 2 eexists. split; [reflexivity|]. split; [discriminate|]. split; [|no_symbol scheduleCancel].
    reflexivity.
  - simpl. do 2 eexists. split; [reflexivity|]. split; [discriminate|]. split; [|no_symbol vaultTransfer].
    reflexivity.
  - simpl. do 2 eexists. split; [reflexivity|]. split; [discriminate|]. split; [|no_symbol setReferrer].
    reflexivity.
Qed.

(** *** What a call leaves in the trace *)

Lemma omap_resolve_events {A} (f : Event -> option A) (syms : list string)
    (ans : list (option Z)) :
  (forall s i, f (EvResolve s i) = None) -> omap f (resolve_events syms ans) = [].
Proof.
  intros Hf. revert ans. induction syms as [|s syms IH]; intros [|i ans]; simpl;
    try reflexivity.
  rewrite Hf. apply IH.
Qed.

Lemma resolutions_resolve_events (syms : list string) (ans : list (option Z)) :
  resolutions (resolve_events syms ans) = zip syms ans.
Proof.
  revert ans. induction syms as [|s syms IH]; intros [|i ans]; simpl;
    try reflexivity.
  f_equal. apply IH.
Qed.

Lemma sign_event_action (c : Call) (act : Action) (t : Z) :
  signed_action (sign_event_of c act t) = Some act.
Proof. destruct c; reflexivity. Qed.

Lemma sign_event_nonce (c : Call) (act : Action) (t : Z) :
  (is_transfer c = true -> action_time act = Some t) ->
  sign_nonce (sign_event_of c act t) = Some t.
Proof. destruct c; simpl; intros H; try reflexivity; apply H; reflexivity. Qed.

Lemma sign_event_not_clock (c : Call) (act : Action) (t : Z) :
  clock_read (sign_event_of c act t) = None.
Proof. destruct c; reflexivity. Qed.

Lemma sign_event_not_request (c : Call) (act : Action) (t : Z) :
  request (sign_event_of c act t) = None.
Proof. destruct c; reflexivity. Qed.

Lemma sign_event_not_resolution (c : Call) (act : Action) (t : Z) :
  resolution (sign_event_of c act t) = None.
Proof. destruct c; reflexivity. Qed.

(** The summary of a call: the trace only grows; the directory is asked
    once per symbol, in order; then either nothing else happens, or the
    clock is read once and one action is signed under that reading, and at
    most one payload, made of that action and that reading, is sent. *)
Lemma call_summary (c : Call) (w : World) :
  let evs := events (call clock this c) w in
  let syms := symbols c in
  let ans := answers this (length w) syms in
  snd (call clock this c w) = w ++ evs /\
  resolutions evs = zip syms ans /\
  match resolved ans with
  | None =>
      evs = resolve_events syms ans /\
      clock_reads evs = [] /\ signed_actions evs = [] /\ nonces evs = [] /\
      requests evs = [] /\
      exists s, first_unknown this (length w) syms = Some s /\
        fst (call clock this c w) = Throw (Error ("Unknown asset: " ++ s)%string)
  | Some l =>
      exists act,
        let t := clock (length w + length syms) in
        (exists tl,
           evs = resolve_events syms ans ++ EvNow t :: sign_event_of c act t :: tl) /\
        clock_reads evs = [t] /\ signed_actions evs = [act] /\ nonces evs = [t] /\
        (is_transfer c = true -> action_time act = Some t) /\
        (wire_law P -> order_action_law P -> action_assets act = map Some l) /\
        (requests evs = [] \/
         exists sg,
           requests evs =
           [{| action := act; nonce := t; signature := sg;
               vaultAddress := vault_field c |}])
  end.
Proof.
  cbn zeta. pose proof (call_outcome c w) as H. cbn zeta in H.
  set (syms := symbols c) in *. set (ans := answers this (length w) syms) in *.
  assert (length (w ++ resolve_events syms ans) = (length w + length syms)%nat) as Hlen
    by (rewrite length_app; unfold ans; rewrite length_resolve_events; reflexivity).
  rewrite Hlen in H.
  destruct (resolved ans) as [l|] eqn:E.
  - destruct H as (act & r & Hr & Htime & Hassets & Hrun).
    set (t := clock (length w + length syms)) in *.
    assert (exists tl,
      (tl = [] \/ exists sg, tl = [EvRequest {| action := act; nonce := t; signature := sg;
                                               vaultAddress := vault_field c |} 1]) /\
      snd (call clock this c w) =
      w ++ resolve_events syms ans ++ EvNow t :: sign_event_of c act t :: tl)
      as (tl & Htl & Hsnd).
    { rewrite Hrun. unfold dispatch. destruct r as [sg|e]; simpl.
      - eexists. split; [right; eauto|]. rewrite <- app_assoc. reflexivity.
      - exists []. split; [left; reflexivity|]. rewrite <- app_assoc. reflexivity. }
    rewrite (events_app _ _ _ Hsnd). split; [exact Hsnd|].
    unfold resolutions, clock_reads, signed_actions, nonces, requests.
    rewrite !omap_app. simpl.
    rewrite sign_event_not_resolution, sign_event_not_clock, sign_event_action,
      (sign_event_nonce _ _ _ Htime), sign_event_not_request.
    rewrite (omap_resolve_events clock_read), (omap_resolve_events signed_action),
      (omap_resolve_events sign_nonce), (omap_resolve_events request) by reflexivity.
    fold (resolutions (resolve_events syms ans)).
    rewrite resolutions_resolve_events. simpl.
    split.
    { destruct Htl as [->|[sg ->]]; simpl; rewrite app_nil_r; reflexivity. }
    exists act. cbn zeta. split; [eauto|].
    destruct Htl as [->|[sg ->]]; simpl; repeat split; eauto.
  - destruct H as (s & Hs & Hrun).
    assert (snd (call clock this c w) = w ++ resolve_events syms ans) as Hsnd
      by (rewrite Hrun; reflexivity).
    rewrite (events_app _ _ _ Hsnd). split; [exact Hsnd|].
    unfold clock_reads, signed_actions, nonces, requests.
    rewrite (omap_resolve_events clock_read), (omap_resolve_events signed_action),
      (omap_resolve_events sign_nonce), (omap_resolve_events request) by reflexivity.
    rewrite resolutions_resolve_events.
    repeat split. exists s. split; [exact Hs|]. rewrite Hrun. reflexivity.
Qed.

End Runs.

(** * The claims *)

Section Claims.

Context {P : Platform} {S : Signing}.
Variable clock : nat -> Z.
Variable this : ExchangeAPI.

Local Abbreviation dir := (sc_getAssetIndex (symbolConversion this)).

Lemma unknown_unresolved (syms : list string) (k i : nat) (s : string) :
  syms !! i = Some s -> dir (k + i) s = None ->
  resolved (answers this k syms) = None.
Proof.
  revert k i. induction syms as [|s0 syms IH]; intros k [|i] Hi Hs; simpl in *;
    try discriminate.
  - injection Hi as ->. rewrite Nat.add_0_r in Hs. rewrite Hs. reflexivity.
  - destruct (dir k s0); [|reflexivity].
    rewrite (IH (Datatypes.S k) i Hi); [reflexivity|].
    rewrite <- Hs. f_equal. lia.
Qed.

Lemma first_settled_unknown_spec (syms : list string) (k m : nat) (s : string) :
  first_settled_unknown this k syms = Some (m, s) ->
  exists i, syms !! i = Some s /\ dir (k + i) s = None /\
            m = sc_settles (symbolConversion this) (k + i).
Proof.
  revert k m s. induction syms as [|s0 syms IH]; intros k m s; simpl; [discriminate|].
  assert (forall m' s',
            first_settled_unknown this (Datatypes.S k) syms = Some (m', s') ->
            exists i, (s0 :: syms) !! i = Some s' /\ dir (k + i) s' = None /\
                      m' = sc_settles (symbolConversion this) (k + i)) as Hlater.
  { intros m' s' H. destruct (IH _ _ _ H) as (i & Hi & Hd & Hm).
    exists (Datatypes.S i). rewrite Nat.add_succ_r. auto. }
  assert (dir k s0 = None ->
          exists i, (s0 :: syms) !! i = Some s0 /\ dir (k + i) s0 = None /\
                    sc_settles (symbolConversion this) k =
                    sc_settles (symbolConversion this) (k + i)) as Hnow.
  { intros E. exists 0%nat. rewrite Nat.add_0_r. auto. }
  destruct (dir k s0) eqn:E; [apply Hlater|].
  destruct (first_settled_unknown this (Datatypes.S k) syms) as [[m' s']|].
  - destruct (m' <? _)%nat; intros [= <- <-]; [apply Hlater|apply Hnow]; reflexivity.
  - intros [= <- <-]. apply Hnow. reflexivity.
Qed.

Lemma first_unknown_spec (syms : list string) (k : nat) (s : string) :
  first_unknown this k syms = Some s ->
  exists i, syms !! i = Some s /\ dir (k + i) s = None.
Proof.
  unfold first_unknown. intros H.
  destruct (first_settled_unknown this k syms) as [[m s']|] eqn:E; [|discriminate].
  injection H as ->.
  destruct (first_settled_unknown_spec _ _ _ _ E) as (i & Hi & Hd & _). eauto.
Qed.

Lemma Forall_resolve_events (syms : list string) (ans : list (option Z)) :
  Forall (fun e => exists s i, e = EvResolve s i) (resolve_events syms ans).
Proof.
  revert ans. induction syms as [|s syms IH]; intros [|i ans]; simpl;
    constructor; eauto.
Qed.

(** C2: when a call refers to a symbol for which the directory has no asset
    index at the moment it is asked, the call fails with the error
    [Unknown asset: s'] for a symbol [s'] of the call that the directory
    did not know; the only events of the call are the directory lookups:
    the clock is not read, nothing is signed and no request is handed to the
    HTTP layer. *)
Theorem unknown_symbol_fails_before_signing (c : Call) (w : World) (i : nat)
    (s : string) :
  symbols c !! i = Some s ->
  sc_getAssetIndex (symbolConversion this) (length w + i) s = None ->
  let evs := events (call clock this c) w in
  (exists s' j,
     symbols c !! j = Some s' /\
     sc_getAssetIndex (symbolConversion this) (length w + j) s' = None /\
     fst (call clock this c w) = Throw (Error ("Unknown asset: " ++ s')%string)) /\
  snd (call clock this c w) = w ++ evs /\
  Forall (fun e => exists s' j, e = EvResolve s' j) evs /\
  clock_reads evs = [] /\ signed_actions evs = [] /\ requests evs = [].
Proof.
  intros Hi Hs evs.
  destruct (call_summary clock this c w) as (Hsnd & _ & H).
  rewrite (unknown_unresolved _ _ _ _ Hi Hs) in H.
  destruct H as (Hevs & Hc & Hsg & _ & Hrq & s' & Hfirst & Hres).
  destruct (first_unknown_spec _ _ _ Hfirst) as (j & Hj & Hd).
  split; [exists s', j; auto|]. split; [exact Hsnd|].
  split; [|auto].
  subst evs. rewrite Hevs. apply Forall_resolve_events.
Qed.

(** C5 (as amended): a dispatched payload has the [vaultAddress] key exactly
    when the call is [placeOrder]; there the key always is written and holds
    the caller's address, or [null] when the caller passed none. *)
Theorem vaultAddress_only_in_placeOrder (c : Call) (w : World) (p : Payload) :
  In p (requests (events (call clock this c) w)) ->
  vaultAddress p =
    match c with
    | PlaceOrder _ v => present (default_null v)
    | _ => absent
    end /\
  (vaultAddress p <> absent <-> is_placeOrder c = true) /\
  (forall r, c = PlaceOrder r absent -> vaultAddress p = present None).
Proof.
  intros Hin.
  destruct (call_summary clock this c w) as (_ & _ & H).
  assert (vaultAddress p = vault_field c) as Hv.
  { destruct (resolved _) as [l|].
    - destruct H as (act & _ & _ & _ & _ & _ & _ & [Hrq|[sg Hrq]]);
        rewrite Hrq in Hin; simpl in Hin; [destruct Hin|].
      destruct Hin as [<-|[]]. reflexivity.
    - destruct H as (_ & _ & _ & _ & Hrq & _). rewrite Hrq in Hin. destruct Hin. }
  rewrite Hv. split; [destruct c; reflexivity|]. split.
  - destruct c; simpl; split; intros H0; try reflexivity; try discriminate;
      try (exfalso; apply H0; reflexivity).
  - intros r ->. reflexivity.
Qed.

(** C10: in every payload dispatched by [usdTransfer], [spotTransfer] or
    [initiateWithdrawal], the [nonce] is the [time] field of the payload's
    action, and that action is the one that was signed. *)
Theorem transfer_nonce_is_action_time (c : Call) (w : World) (p : Payload) :
  is_transfer c = true ->
  In p (requests (events (call clock this c) w)) ->
  action_time (action p) = Some (nonce p) /\
  signed_actions (events (call clock this c) w) = [action p].
Proof.
  intros Ht Hin.
  destruct (call_summary clock this c w) as (_ & _ & H).
  destruct (resolved _) as [l|].
  - destruct H as (act & _ & _ & Hsg & _ & Htime & _ & [Hrq|[sg Hrq]]);
      rewrite Hrq in Hin; simpl in Hin; [destruct Hin|].
    destruct Hin as [<-|[]]. simpl. split; [apply Htime, Ht|exact Hsg].
  - destruct H as (_ & _ & _ & _ & Hrq & _). rewrite Hrq in Hin. destruct Hin.
Qed.

(** The nonce of a call is the clock reading the call took; the call made
    the world longer than the time of that reading, and a payload it
    dispatches carries that nonce. *)
Lemma nonce_is_reading (c : Call) (w : World) (n : Z) :
  In n (nonces (events (call clock this c) w)) ->
  exists k, (length w <= k < length (snd (call clock this c w)))%nat /\
            n = clock k /\
            clock_reads (events (call clock this c) w) = [n] /\
            Forall (fun p => nonce p = n) (requests (events (call clock this c) w)).
Proof.
  intros Hin.
  destruct (call_summary clock this c w) as (Hsnd & _ & H).
  destruct (resolved _) as [l|].
  - destruct H as (act & (tl & Hevs) & Hck & _ & Hn & _ & _ & Hrq).
    rewrite Hn in Hin. destruct Hin as [<-|[]].
    exists (length w + length (symbols c))%nat. split; [|split; [reflexivity|]].
    + rewrite Hsnd, Hevs, !length_app, length_resolve_events. simpl. lia.
    + split; [exact Hck|].
      destruct Hrq as [->|[sg ->]]; repeat constructor.
  - destruct H as (_ & _ & _ & Hn & _). rewrite Hn in Hin. destruct Hin.
Qed.

(** C1 (as amended): the nonce of a call is the value the clock showed when
    the call read it, and it is the nonce of the payload the call
    dispatches.  For two calls made one after the other on the same instance
    the second reading is taken later than the first: the second nonce is at
    least the first whenever the clock does not run backwards, it is
    strictly greater whenever the clock advanced between the two readings,
    and the two nonces are equal when the clock shows the same millisecond
    at both readings. *)
Theorem nonce_order_follows_clock (c1 c2 : Call) (w : World) (n1 n2 : Z) :
  let w1 := snd (call clock this c1 w) in
  In n1 (nonces (events (call clock this c1) w)) ->
  In n2 (nonces (events (call clock this c2) w1)) ->
  Forall (fun p => nonce p = n1) (requests (events (call clock this c1) w)) /\
  Forall (fun p => nonce p = n2) (requests (events (call clock this c2) w1)) /\
  exists k1 k2,
    (k1 < k2)%nat /\ n1 = clock k1 /\ n2 = clock k2 /\
    ((forall i j, (i <= j)%nat -> clock i <= clock j) -> n1 <= n2) /\
    (clock k1 < clock k2 -> n1 < n2) /\
    (clock k1 = clock k2 -> n1 = n2).
Proof.
  cbn zeta. intros H1 H2.
  destruct (nonce_is_reading _ _ _ H1) as (k1 & Hk1 & -> & _ & Hp1).
  destruct (nonce_is_reading _ _ _ H2) as (k2 & Hk2 & -> & _ & Hp2).
  split; [exact Hp1|]. split; [exact Hp2|].
  exists k1, k2. repeat split; [lia| |auto|auto].
  intros Hmono. apply Hmono. lia.
Qed.

(** A call that resolved its symbols and signs with the L1 scheme, told
    apart by what the signer answers. *)
Lemma dispatch_L1_cases (w' : World) (act : Action) (v : option string) (t : Z)
    (vault : field (option string)) :
  dispatch this w' (EvSignL1 act v t) (signL1Action (wallet this) act v t) act t vault =
  match signL1Action (wallet this) act v t with
  | Ok sg =>
      let p := {| action := act; nonce := t; signature := sg; vaultAddress := vault |} in
      (makeRequest (httpApi this) (length w' + 2) p 1,
       w' ++ [EvNow t; EvSignL1 act v t; EvRequest p 1])
  | Throw e => (Throw e, w' ++ [EvNow t; EvSignL1 act v t])
  end.
Proof. reflexivity. Qed.

Lemma observe_dispatched (w : World) (syms : list string) (ans : list (option Z))
    (sev : Event) (act : Action) (t : Z) (p : Payload) {A} (m : M A) :
  signed_action sev = Some act -> clock_read sev = None -> request sev = None ->
  snd (m w) = (w ++ resolve_events syms ans) ++ [EvNow t; sev; EvRequest p 1] ->
  clock_reads (events m w) = [t] /\ signed_actions (events m w) = [act] /\
  requests (events m w) = [p].
Proof.
  intros Ha Hc Hr Hsnd. rewrite <- app_assoc in Hsnd.
  rewrite (events_app _ _ _ Hsnd).
  unfold clock_reads, signed_actions, requests. rewrite !omap_app.
  rewrite (omap_resolve_events clock_read), (omap_resolve_events signed_action),
    (omap_resolve_events request) by reflexivity.
  simpl. rewrite Ha, Hc, Hr. auto.
Qed.

Lemma zip_with_cancel_fields (reqs : list CancelOrderRequest) (l : list Z) :
  length l = length reqs ->
  map o (zip_with (fun req i => {| a := i; o := cr_o req |}) reqs l) = map cr_o reqs /\
  map a (zip_with (fun req i => {| a := i; o := cr_o req |}) reqs l) = l.
Proof.
  revert l. induction reqs as [|r reqs IH]; intros [|i l] H; simpl in *;
    try discriminate; [auto|].
  destruct (IH l) as [Ho Ha]; [lia|]. rewrite Ho, Ha. auto.
Qed.

Lemma zip_with_modify_fields (ms : list ModifyRequest) (l : list Z) :
  length l = length ms ->
  map oid (zip_with (fun m i =>
                       {| oid := mr_oid m;
                          order := orderRequestToOrderWire (mr_order m) (Some i) |})
             ms l) = map mr_oid ms.
Proof.
  revert l. induction ms as [|m ms IH]; intros [|i l] H; simpl in *;
    try discriminate; [auto|].
  rewrite IH by lia. reflexivity.
Qed.

(** C3: a batch call whose symbols all resolve and whose action the signer
    signs reads the clock once, signs once and dispatches one payload,
    whatever the number of entries; the entries of the action are the
    caller's entries in the caller's order, the [k]-th one carrying the
    index resolved for the [k]-th symbol. *)
Theorem batch_is_one_signed_request (w : World) :
  (forall (cancelRequests : OneOrMany CancelOrderRequest) (l : list Z) (sg : Signature),
     let reqs := toArray cancelRequests in
     let t := clock (length w + length reqs) in
     let entries := zip_with (fun req i => {| a := i; o := cr_o req |}) reqs l in
     let evs := events (cancelOrder clock this cancelRequests) w in
     resolved (answers this (length w) (map cr_coin reqs)) = Some l ->
     signL1Action (wallet this) (CancelAct CANCEL entries) None t = Ok sg ->
     clock_reads evs = [t] /\
     signed_actions evs = [CancelAct CANCEL entries] /\
     requests evs = [{| action := CancelAct CANCEL entries; nonce := t;
                        signature := sg; vaultAddress := absent |}] /\
     length entries = length reqs /\
     map o entries = map cr_o reqs /\ map a entries = l) /\
  (forall (modifies : list ModifyRequest) (l : list Z) (sg : Signature),
     let t := clock (length w + length modifies) in
     let entries :=
       zip_with (fun m i =>
                   {| oid := mr_oid m;
                      order := orderRequestToOrderWire (mr_order m) (Some i) |})
         modifies l in
     let evs := events (batchModifyOrders clock this modifies) w in
     resolved (answers this (length w) (map (fun m => coin (mr_order m)) modifies))
       = Some l ->
     signL1Action (wallet this) (BatchModifyAct BATCH_MODIFY entries) None t = Ok sg ->
     clock_reads evs = [t] /\
     signed_actions evs = [BatchModifyAct BATCH_MODIFY entries] /\
     requests evs = [{| action := BatchModifyAct BATCH_MODIFY entries; nonce := t;
                        signature := sg; vaultAddress := absent |}] /\
     length entries = length modifies /\
     map oid entries = map mr_oid modifies).
Proof.
  split.
  - intros cancelRequests l sg reqs t entries evs E Hsg.
    assert (length l = length reqs) as Hl
      by (rewrite (resolved_length _ _ E), answers_length, length_map; reflexivity).
    pose proof (cancelOrder_run clock this cancelRequests w) as Hrun.
    cbn zeta in Hrun. fold reqs in Hrun. rewrite E in Hrun.
    rewrite length_app, length_resolve_events, length_map in Hrun.
    fold t entries in Hrun. rewrite dispatch_L1_cases, Hsg in Hrun.
    destruct (observe_dispatched w (map cr_coin reqs)
                (answers this (length w) (map cr_coin reqs))
                (EvSignL1 (CancelAct CANCEL entries) None t) (CancelAct CANCEL entries) t
                {| action := CancelAct CANCEL entries; nonce := t; signature := sg;
                   vaultAddress := absent |}
                (cancelOrder clock this cancelRequests))
      as (Hc & Ha & Hr); try reflexivity.
    { rewrite Hrun. reflexivity. }
    destruct (zip_with_cancel_fields reqs l Hl) as [Ho Hi].
    repeat split; try assumption.
    unfold entries. rewrite length_zip_with. lia.
  - intros modifies l sg t entries evs E Hsg.
    assert (length l = length modifies) as Hl
      by (rewrite (resolved_length _ _ E), answers_length, length_map; reflexivity).
    pose proof (batchModifyOrders_run clock this modifies w) as Hrun.
    cbn zeta in Hrun. rewrite E in Hrun.
    rewrite length_app, length_resolve_events, length_map in Hrun.
    fold t entries in Hrun. rewrite dispatch_L1_cases, Hsg in Hrun.
    destruct (observe_dispatched w (map (fun m => coin (mr_order m)) modifies)
                (answers this (length w) (map (fun m => coin (mr_order m)) modifies))
                (EvSignL1 (BatchModifyAct BATCH_MODIFY entries) None t)
                (BatchModifyAct BATCH_MODIFY entries) t
                {| action := BatchModifyAct BATCH_MODIFY entries; nonce := t;
                   signature := sg; vaultAddress := absent |}
                (batchModifyOrders clock this modifies))
      as (Hc & Ha & Hr); try reflexivity.
    { rewrite Hrun. reflexivity. }
    pose proof (zip_with_modify_fields modifies l Hl) as Ho.
    repeat split; try assumption.
    unfold entries. rewrite length_zip_with. lia.
Qed.

(** C8: when [symbol] resolves to [i], [cancelOrderByCloid] builds the
    action [{type: CANCEL_BY_CLOID, cancels: [{asset: i, cloid}]}], signs
    exactly that action with the L1 scheme (no vault address, the clock
    reading as nonce) and, when the signer answers, dispatches it. *)
Theorem cancelOrderByCloid_builds_single_cancel (symbol cloid : string) (i : Z)
    (w : World) :
  sc_getAssetIndex (symbolConversion this) (length w) symbol = Some i ->
  let t := clock (length w + 1) in
  let act := CancelByCloidAct CANCEL_BY_CLOID [{| asset := i; cloid := cloid |}] in
  match signL1Action (wallet this) act None t with
  | Ok sg =>
      let p := {| action := act; nonce := t; signature := sg; vaultAddress := absent |} in
      cancelOrderByCloid clock this symbol cloid w =
      (makeRequest (httpApi this) (length w + 3) p 1,
       w ++ [EvResolve symbol (Some i); EvNow t; EvSignL1 act None t; EvRequest p 1])
  | Throw e =>
      cancelOrderByCloid clock this symbol cloid w =
      (Throw e, w ++ [EvResolve symbol (Some i); EvNow t; EvSignL1 act None t])
  end.
Proof.
  intros E. cbn zeta.
  assert (cancelOrderByCloid clock this symbol cloid w =
          dispatch this (w ++ [EvResolve symbol (Some i)])
            (EvSignL1 (CancelByCloidAct CANCEL_BY_CLOID [{| asset := i; cloid := cloid |}])
               None (clock (length w + 1)))
            (signL1Action (wallet this)
               (CancelByCloidAct CANCEL_BY_CLOID [{| asset := i; cloid := cloid |}])
               None (clock (length w + 1)))
            (CancelByCloidAct CANCEL_BY_CLOID [{| asset := i; cloid := cloid |}])
            (clock (length w + 1)) absent) as Hrun.
  { unfold cancelOrderByCloid. rewrite try_catch_throw. unfold bind at 1.
    rewrite getAssetIndex_run, E, dispatch_L1, length_snoc.
    replace (Datatypes.S (length w)) with (length w + 1)%nat by lia. reflexivity. }
  rewrite Hrun, dispatch_L1_cases, length_snoc.
  replace (Datatypes.S (length w) + 2)%nat with (length w + 3)%nat by lia.
  destruct (signL1Action _ _ _ _); cbn zeta; rewrite <- app_assoc; reflexivity.
Qed.

Lemma toString_100 : Number.toString 100%float = "100"%string.
Proof. vm_compute. reflexivity. Qed.

(** C6: [usdTransfer(destination, 100)] builds the action whose [amount] is
    the string ["100"], whose [hyperliquidChain] is the name of the
    configured network (["Mainnet"], as [IS_MAINNET] is [true]), whose
    [signatureChainId] is ["0xa4b1"] and whose [time] is the clock reading;
    it signs that action with [signUsdTransferAction], the typed-data
    scheme, and never calls the L1 signer; the payload carries that action
    and its [time] as nonce. *)
Theorem usdTransfer_100 (destination : string) (w : World) :
  let t := clock (length w) in
  let act := SendAct USD_SEND "Mainnet" "0xa4b1" destination "100" t in
  chainName IS_MAINNET = "Mainnet"%string /\
  Forall (fun e => is_signL1 e = false) (events (usdTransfer clock this destination 100%float) w) /\
  match signUsdTransferAction (wallet this) act with
  | Ok sg =>
      let p := {| action := act; nonce := t; signature := sg; vaultAddress := absent |} in
      usdTransfer clock this destination 100%float w =
      (makeRequest (httpApi this) (length w + 2) p 1,
       w ++ [EvNow t; EvSignUsdTransfer act; EvRequest p 1])
  | Throw e =>
      usdTransfer clock this destination 100%float w =
      (Throw e, w ++ [EvNow t; EvSignUsdTransfer act])
  end.
Proof.
  cbn zeta. split; [reflexivity|].
  assert (usdTransfer clock this destination 100%float w =
          dispatch this w
            (EvSignUsdTransfer
               (SendAct USD_SEND "Mainnet" "0xa4b1" destination "100" (clock (length w))))
            (signUsdTransferAction (wallet this)
               (SendAct USD_SEND "Mainnet" "0xa4b1" destination "100" (clock (length w))))
            (SendAct USD_SEND "Mainnet" "0xa4b1" destination "100" (clock (length w)))
            (clock (length w)) absent) as Hrun.
  { unfold usdTransfer. rewrite try_catch_throw, toString_100.
    unfold bind, Date_now, await_signUsdTransferAction, httpApi_makeRequest, outside,
      dispatch; simpl.
    destruct (signUsdTransferAction _ _);
      rewrite ?length_snoc, <- ?app_assoc; simpl;
      rewrite ?Nat.add_succ_r, ?Nat.add_0_r; reflexivity. }
  unfold events. rewrite Hrun. unfold dispatch. simpl.
  destruct (signUsdTransferAction _ _); simpl; rewrite drop_app_length;
    (split; [repeat constructor|reflexivity]).
Qed.

(** C9: a batch call on the empty list does not stop early: it builds the
    action with the empty list, reads the clock, signs that action with the
    L1 scheme and, when the signer answers, dispatches it and returns what
    the HTTP layer returns. *)
Theorem empty_batch_is_signed_and_sent (w : World) :
  let t := clock (length w) in
  (let act := CancelAct CANCEL [] in
   match signL1Action (wallet this) act None t with
   | Ok sg =>
       let p := {| action := act; nonce := t; signature := sg; vaultAddress := absent |} in
       cancelOrder clock this (Many []) w =
       (makeRequest (httpApi this) (length w + 2) p 1,
        w ++ [EvNow t; EvSignL1 act None t; EvRequest p 1])
   | Throw e =>
       cancelOrder clock this (Many []) w = (Throw e, w ++ [EvNow t; EvSignL1 act None t])
   end) /\
  (let act := BatchModifyAct BATCH_MODIFY [] in
   match signL1Action (wallet this) act None t with
   | Ok sg =>
       let p := {| action := act; nonce := t; signature := sg; vaultAddress := absent |} in
       batchModifyOrders clock this [] w =
       (makeRequest (httpApi this) (length w + 2) p 1,
        w ++ [EvNow t; EvSignL1 act None t; EvRequest p 1])
   | Throw e =>
       batchModifyOrders clock this [] w =
       (Throw e, w ++ [EvNow t; EvSignL1 act None t])
   end).
Proof.
  cbn zeta. split.
  - rewrite cancelOrder_run. simpl. rewrite app_nil_r, dispatch_L1_cases.
    destruct (signL1Action _ _ _ _); reflexivity.
  - rewrite batchModifyOrders_run. simpl. rewrite app_nil_r, dispatch_L1_cases.
    destruct (signL1Action _ _ _ _); reflexivity.
Qed.

End Claims.

(** * The pipeline as a whole

    Properties of every method at once, read off the shape all of them
    share: resolve, read the clock, sign, dispatch. *)

Section Pipeline.

Context {P : Platform} {S : Signing}.
Variable clock : nat -> Z.
Variable this : ExchangeAPI.

Local Abbreviation dir := (sc_getAssetIndex (symbolConversion this)).

(** The run of a call, spelled out by what the directory and the signer
    answer. *)
Lemma call_shape (c : Call) (w : World) :
  let syms := symbols c in
  let ans := answers this (length w) syms in
  let res := resolve_events syms ans in
  let t := clock (length w + length syms) in
  match resolved ans with
  | None =>
      exists s, first_unknown this (length w) syms = Some s /\
        call clock this c w = (Throw (Error ("Unknown asset: " ++ s)%string), w ++ res)
  | Some l =>
      exists act r,
        signer_answer this (sign_event_of c act t) = Some r /\
        (is_transfer c = true -> action_time act = Some t) /\
        call clock this c w =
        match r with
        | Ok sg =>
            let p := {| action := act; nonce := t; signature := sg;
                        vaultAddress := vault_field c |} in
            (makeRequest (httpApi this) (length w + length syms + 2) p 1,
             w ++ res ++ [EvNow t; sign_event_of c act t; EvRequest p 1])
        | Throw e => (Throw e, w ++ res ++ [EvNow t; sign_event_of c act t])
        end
  end.
Proof.
  cbn zeta. pose proof (call_outcome clock this c w) as H. cbn zeta in H.
  rewrite length_app, length_resolve_events in H.
  destruct (resolved _) as [l|].
  - destruct H as (act & r & Hr & Htime & _ & Hrun).
    exists act, r. split; [exact Hr|]. split; [exact Htime|].
    rewrite Hrun. unfold dispatch.
    destruct r; rewrite ?length_app, ?length_resolve_events, <- app_assoc; reflexivity.
  - exact H.
Qed.

Lemma resolve_event_is_lookup (syms : list string) (ans : list (option Z)) (e : Event) :
  In e (resolve_events syms ans) -> exists s i, e = EvResolve s i.
Proof.
  intros Hin. pose proof (Forall_resolve_events syms ans) as HF.
  rewrite List.Forall_forall in HF. apply HF, Hin.
Qed.

(** X1: the outside calls of a call come in one order: first the directory
    lookups, then one clock reading, then one signature over the action
    under that reading, then at most one request, of weight 1, whose payload
    carries the signed action, the reading as nonce and the signature the
    signer returned.  Nothing is dispatched that was not signed first. *)
Theorem call_events_in_order (c : Call) (w : World) :
  exists res tail,
    snd (call clock this c w) = w ++ res ++ tail /\
    Forall (fun e => exists s i, e = EvResolve s i) res /\
    (tail = [] \/
     exists t act sev,
       signed_action sev = Some act /\ sign_nonce sev = Some t /\
       (tail = [EvNow t; sev] \/
        exists p,
          action p = act /\ nonce p = t /\
          signer_answer this sev = Some (Ok (signature p)) /\
          tail = [EvNow t; sev; EvRequest p 1])).
Proof.
  pose proof (call_shape c w) as H. cbn zeta in H.
  destruct (resolved _) as [l|].
  - destruct H as (act & r & Hr & Htime & Hrun).
    eexists. destruct r as [sg|e].
    + eexists. rewrite Hrun. split; [reflexivity|].
      split; [apply Forall_resolve_events|]. right.
      eexists. exists act. eexists.
      split; [apply sign_event_action|]. split; [apply sign_event_nonce, Htime|].
      right.
      exists {| action := act; nonce := clock (length w + length (symbols c));
                signature := sg; vaultAddress := vault_field c |}.
      split; [reflexivity|]. split; [reflexivity|]. split; [exact Hr|reflexivity].
    + eexists. rewrite Hrun. split; [reflexivity|].
      split; [apply Forall_resolve_events|]. right.
      eexists. exists act. eexists.
      split; [apply sign_event_action|]. split; [apply sign_event_nonce, Htime|].
      left. reflexivity.
  - destruct H as (s & _ & Hrun). eexists. exists []. rewrite Hrun.
    split; [rewrite app_nil_r; reflexivity|].
    split; [apply Forall_resolve_events|]. left. reflexivity.
Qed.

(** X2: when the signer rejects, the call rejects with the very value the
    signer threw and no request is handed to the HTTP layer. *)
Theorem signer_failure_is_rethrown (c : Call) (w : World) (sev : Event) (e : thrown) :
  In sev (events (call clock this c) w) ->
  signer_answer this sev = Some (Throw e) ->
  fst (call clock this c w) = Throw e /\
  requests (events (call clock this c) w) = [].
Proof.
  intros Hin Hsev. pose proof (call_shape c w) as H. cbn zeta in H.
  destruct (resolved _) as [l|].
  - destruct H as (act & r & Hr & _ & Hrun). destruct r as [sg|e'].
    + assert (snd (call clock this c w) = w ++ _) as Hsnd by (rewrite Hrun; reflexivity).
      rewrite (events_app _ _ _ Hsnd) in Hin.
      apply in_app_or in Hin. destruct Hin as [Hin|Hin].
      * apply resolve_event_is_lookup in Hin. destruct Hin as (s & i & ->). discriminate.
      * destruct Hin as [<-|[<-|[<-|[]]]]; try discriminate. congruence.
    + assert (snd (call clock this c w) = w ++ _) as Hsnd by (rewrite Hrun; reflexivity).
      rewrite (events_app _ _ _ Hsnd) in *.
      apply in_app_or in Hin. destruct Hin as [Hin|Hin].
      * apply resolve_event_is_lookup in Hin. destruct Hin as (s & i & ->). discriminate.
      * destruct Hin as [<-|[<-|[]]]; try discriminate.
        rewrite Hr in Hsev. injection Hsev as ->. rewrite Hrun. split; [reflexivity|].
        unfold requests. rewrite omap_app, (omap_resolve_events request) by reflexivity.
        simpl. rewrite sign_event_not_request. reflexivity.
  - destruct H as (s & _ & Hrun).
    assert (snd (call clock this c w) = w ++ _) as Hsnd by (rewrite Hrun; reflexivity).
    rewrite (events_app _ _ _ Hsnd) in Hin.
    apply resolve_event_is_lookup in Hin. destruct Hin as (s' & i & ->). discriminate.
Qed.

(** X3: a call that dispatched a payload returns exactly what the HTTP layer
    answered to that payload, with weight 1, at the moment it was asked: a
    response or a rejection, unchanged. *)
Theorem response_is_transport_answer (c : Call) (w : World) (p : Payload) :
  In p (requests (events (call clock this c) w)) ->
  fst (call clock this c w) =
  makeRequest (httpApi this) (length (snd (call clock this c w)) - 1) p 1.
Proof.
  intros Hin. pose proof (call_shape c w) as H. cbn zeta in H.
  destruct (resolved _) as [l|].
  - destruct H as (act & r & Hr & _ & Hrun). destruct r as [sg|e].
    + assert (snd (call clock this c w) = w ++ _) as Hsnd by (rewrite Hrun; reflexivity).
      rewrite (events_app _ _ _ Hsnd) in Hin. unfold requests in Hin.
      rewrite omap_app, (omap_resolve_events request) in Hin by reflexivity.
      simpl in Hin. rewrite sign_event_not_request in Hin.
      destruct Hin as [<-|[]]. rewrite Hrun. cbn [fst snd].
      rewrite !length_app, length_resolve_events. simpl. f_equal. lia.
    + assert (snd (call clock this c w) = w ++ _) as Hsnd by (rewrite Hrun; reflexivity).
      rewrite (events_app _ _ _ Hsnd) in Hin. unfold requests in Hin.
      rewrite omap_app, (omap_resolve_events request) in Hin by reflexivity.
      simpl in Hin. rewrite sign_event_not_request in Hin. destruct Hin.
  - destruct H as (s & _ & Hrun).
    assert (snd (call clock this c w) = w ++ _) as Hsnd by (rewrite Hrun; reflexivity).
    rewrite (events_app _ _ _ Hsnd) in Hin. unfold requests in Hin.
    rewrite (omap_resolve_events request) in Hin by reflexivity. destruct Hin.
Qed.

Lemma zip_answers_lookup (syms : list string) (n k : nat) (s : string) :
  syms !! k = Some s ->
  zip syms (answers this n syms) !! k = Some (s, dir (n + k) s).
Proof.
  revert n k. induction syms as [|s0 syms IH]; intros n [|k] H; simpl in *;
    try discriminate.
  - injection H as ->. rewrite Nat.add_0_r. reflexivity.
  - rewrite (IH (Datatypes.S n) k H). do 3 f_equal. lia.
Qed.

(** X4: a call asks the directory once for every symbol it refers to, in
    order, whether or not it goes on to sign: the [k]-th lookup is for the
    [k]-th symbol and is made [k] steps after the call started.  An unknown
    symbol early in a batch does not stop the later lookups. *)
Theorem every_symbol_is_looked_up (c : Call) (w : World) (k : nat) (s : string) :
  symbols c !! k = Some s ->
  length (resolutions (events (call clock this c) w)) = length (symbols c) /\
  resolutions (events (call clock this c) w) !! k =
  Some (s, sc_getAssetIndex (symbolConversion this) (length w + k) s).
Proof.
  intros Hk. destruct (call_summary clock this c w) as (_ & Hres & _).
  rewrite Hres. split.
  - rewrite length_zip, answers_length. lia.
  - apply zip_answers_lookup, Hk.
Qed.

(** X5: a call that has no symbol to resolve never consults the directory
    and cannot stop before the signature: it always reads the clock and
    asks the signer for a signature under that reading, whatever its
    arguments are. *)
Theorem symbol_free_call_always_signs (c : Call) (w : World) :
  symbols c = [] ->
  resolutions (events (call clock this c) w) = [] /\
  clock_reads (events (call clock this c) w) = [clock (length w)] /\
  nonces (events (call clock this c) w) = [clock (length w)] /\
  exists act, signed_actions (events (call clock this c) w) = [act].
Proof.
  intros Hs. destruct (call_summary clock this c w) as (_ & Hres & H).
  rewrite Hs in *. simpl in *. rewrite Nat.add_0_r in H.
  destruct H as (act & _ & Hc & Ha & Hn & _). eauto.
Qed.

(** X6: which signer a call uses is fixed by the operation: the three
    transfers never use the L1 scheme; every other operation signs with the
    L1 scheme, with [null] as vault address, except [placeOrder], which
    signs with the vault address it also writes into the payload. *)
Theorem signing_scheme_by_operation (c : Call) (w : World) (sev : Event)
    (act : Action) :
  In sev (events (call clock this c) w) ->
  signed_action sev = Some act ->
  if is_transfer c then is_signL1 sev = false
  else
    exists n,
      sev = EvSignL1 act
              match c with
              | PlaceOrder _ v => default_null v
              | _ => None
              end n.
Proof.
  intros Hin Hact. pose proof (call_shape c w) as H. cbn zeta in H.
  assert (forall tl act' t,
            (tl = [] \/ exists p, tl = [EvRequest p 1]) ->
            In sev (resolve_events (symbols c) (answers this (length w) (symbols c))
                      ++ EvNow t :: sign_event_of c act' t :: tl) ->
            sev = sign_event_of c act t) as Hcase.
  { intros tl act' t Htl Hin'. apply in_app_or in Hin'. destruct Hin' as [Hin'|Hin'].
    - apply resolve_event_is_lookup in Hin'. destruct Hin' as (s & i & ->). discriminate.
    - destruct Hin' as [<-|[<-|Hin']]; [discriminate| |].
      + rewrite sign_event_action in Hact. injection Hact as ->. reflexivity.
      + destruct Htl as [->|[p ->]]; [destruct Hin'|].
        destruct Hin' as [<-|[]]. discriminate. }
  assert (exists t, sev = sign_event_of c act t) as [t ->].
  { destruct (resolved _) as [l|].
    - destruct H as (act' & r & _ & _ & Hrun).
      assert (exists tl, (tl = [] \/ exists p, tl = [EvRequest p 1]) /\
                snd (call clock this c w) =
                w ++ resolve_events (symbols c) (answers this (length w) (symbols c))
                  ++ EvNow (clock (length w + length (symbols c)))
                  :: sign_event_of c act' (clock (length w + length (symbols c))) :: tl)
        as (tl & Htl & Hsnd).
      { rewrite Hrun. destruct r; eexists; (split; [|reflexivity]); eauto. }
      rewrite (events_app _ _ _ Hsnd) in Hin. eexists. eapply Hcase; eauto.
    - destruct H as (s & _ & Hrun).
      assert (snd (call clock this c w) = w ++ _) as Hsnd by (rewrite Hrun; reflexivity).
      rewrite (events_app _ _ _ Hsnd) in Hin.
      apply resolve_event_is_lookup in Hin. destruct Hin as (s' & i & ->). discriminate. }
  destruct c; simpl; eauto.
Qed.

(** The nonces a call signs under are readings of the clock taken while the
    call ran. *)
Lemma call_nonces_are_readings (c : Call) (w : World) :
  let evs := events (call clock this c) w in
  snd (call clock this c w) = w ++ evs /\
  (length (nonces evs) <= 1)%nat /\ (length (requests evs) <= 1)%nat /\
  Forall (fun n => exists k, (length w <= k < length w + length evs)%nat /\ n = clock k)
    (nonces evs).
Proof.
  cbn zeta. destruct (call_summary clock this c w) as (Hsnd & _ & H).
  split; [exact Hsnd|].
  destruct (resolved _) as [l|].
  - destruct H as (act & (tl & Hevs) & _ & _ & Hn & _ & _ & Hrq).
    rewrite Hn. split; [simpl; lia|]. split.
    + destruct Hrq as [->|[sg ->]]; simpl; lia.
    + constructor; [|constructor].
      exists (length w + length (symbols c))%nat. split; [|reflexivity].
      rewrite Hevs, length_app, length_resolve_events. simpl. lia.
  - destruct H as (_ & _ & _ & Hn & Hrq & _). rewrite Hn, Hrq. simpl.
    split; [lia|]. split; [lia|constructor].
Qed.

Lemma session_readings (cs : list Call) :
  forall w,
    exists evs,
      session clock this cs w = w ++ evs /\
      (length (nonces evs) <= length cs)%nat /\
      (length (requests evs) <= length cs)%nat /\
      Forall (fun n => exists k, (length w <= k < length w + length evs)%nat /\ n = clock k)
        (nonces evs) /\
      ((forall i j, (i <= j)%nat -> clock i <= clock j) ->
       StronglySorted Z.le (nonces evs)).
Proof.
  induction cs as [|c cs IH]; intros w; simpl.
  - exists []. rewrite app_nil_r. repeat split; simpl; try lia; constructor.
  - destruct (call_nonces_are_readings c w) as (Hsnd & Hn1 & Hr1 & HF1).
    set (evs1 := events (call clock this c) w) in *.
    destruct (IH (snd (call clock this c w))) as (evs2 & Hs & Hn2 & Hr2 & HF2 & Hsorted).
    rewrite Hsnd in HF2. rewrite length_app in HF2.
    exists (evs1 ++ evs2). rewrite Hs, Hsnd, <- app_assoc.
    unfold nonces, requests in *. rewrite !omap_app, !length_app.
    split; [reflexivity|]. split; [lia|]. split; [lia|].
    split.
    + apply Forall_app. split.
      * eapply List.Forall_impl; [|exact HF1]. intros n (k & Hk & ->). exists k.
        split; [lia|reflexivity].
      * eapply List.Forall_impl; [|exact HF2]. intros n (k & Hk & ->). exists k.
        split; [lia|reflexivity].
    + intros Hmono. specialize (Hsorted Hmono).
      destruct (omap sign_nonce evs1) as [|n1 [|? ?]]; simpl in *; try lia.
      * exact Hsorted.
      * constructor; [exact Hsorted|].
        apply Forall_inv in HF1. destruct HF1 as (k1 & Hk1 & ->).
        eapply List.Forall_impl; [|exact HF2]. intros n (k & Hk & ->).
        apply Hmono. lia.
Qed.

(** X7: over any sequence of calls made one after the other on one
    instance, starting from any world, the trace only grows, there are at
    most as many signatures and as many requests as calls, and, when the
    clock does not run backwards, the nonces are signed in non-decreasing
    order. *)
Theorem session_nonces_sorted (cs : list Call) (w : World) :
  (forall i j, (i <= j)%nat -> clock i <= clock j) ->
  exists evs,
    session clock this cs w = w ++ evs /\
    (length (nonces evs) <= length cs)%nat /\
    (length (requests evs) <= length cs)%nat /\
    StronglySorted Z.le (nonces evs).
Proof.
  intros Hmono.
  destruct (session_readings cs w) as (evs & Hs & Hn & Hr & _ & Hsorted).
  exists evs. auto.
Qed.

End Pipeline.

(** * Single methods *)

Section Methods.

Context {P : Platform} {S : Signing}.
Variable clock : nat -> Z.
Variable this : ExchangeAPI.

Local Abbreviation dir := (sc_getAssetIndex (symbolConversion this)).

(** A method that starts by resolving one symbol. *)
Lemma resolve_then {A} (s : string) (k : Z -> M A) (w : World) :
  bind (getAssetIndex this s) k w =
  match dir (length w) s with
  | Some i => k i (w ++ [EvResolve s (Some i)])
  | None => (Throw (Error ("Unknown asset: " ++ s)%string), w ++ [EvResolve s None])
  end.
Proof.
  unfold bind. rewrite getAssetIndex_run. destruct (dir (length w) s); reflexivity.
Qed.

(** What can be read from the trace of a computation that resolved, then
    signed and dispatched. *)
Lemma dispatch_observed (m : M Response) (w : World) (pre : list Event) (sev : Event)
    (r : result Signature) (act : Action) (t : Z) (vault : field (option string)) :
  m w = dispatch this (w ++ pre) sev r act t vault ->
  omap signed_action pre = [] -> omap request pre = [] ->
  signed_action sev = Some act -> request sev = None ->
  signed_actions (events m w) = [act] /\
  In sev (events m w) /\
  requests (events m w) =
  match r with
  | Ok sg => [{| action := act; nonce := t; signature := sg; vaultAddress := vault |}]
  | Throw _ => []
  end.
Proof.
  intros Hrun Hpa Hpr Ha Hr. unfold dispatch in Hrun.
  destruct r as [sg|e].
  - assert (snd (m w) = w ++ pre ++ [EvNow t; sev;
                EvRequest {| action := act; nonce := t; signature := sg;
                             vaultAddress := vault |} 1]) as Hsnd
      by (rewrite Hrun, <- app_assoc; reflexivity).
    rewrite (events_app _ _ _ Hsnd). unfold signed_actions, requests.
    rewrite !omap_app, Hpa, Hpr. simpl. rewrite Ha, Hr.
    split; [reflexivity|]. split; [|reflexivity].
    apply in_or_app. right. simpl. auto.
  - assert (snd (m w) = w ++ pre ++ [EvNow t; sev]) as Hsnd
      by (rewrite Hrun, <- app_assoc; reflexivity).
    rewrite (events_app _ _ _ Hsnd). unfold signed_actions, requests.
    rewrite !omap_app, Hpa, Hpr. simpl. rewrite Ha, Hr.
    split; [reflexivity|]. split; [|reflexivity].
    apply in_or_app. right. simpl. auto.
Qed.

Lemma placeOrder_run (orderRequest : OrderRequest) (arg : field (option string))
    (i : Z) (w : World) :
  dir (length w) (coin orderRequest) = Some i ->
  let t := clock (length w + 1) in
  let act := OrderAct (orderWiresToOrderAction
                         [orderRequestToOrderWire orderRequest (Some i)]) in
  placeOrder clock this orderRequest arg w =
  dispatch this (w ++ [EvResolve (coin orderRequest) (Some i)])
    (EvSignL1 act (default_null arg) t)
    (signL1Action (wallet this) act (default_null arg) t) act t
    (present (default_null arg)).
Proof.
  intros E. cbn zeta. unfold placeOrder. cbn zeta.
  rewrite try_catch_throw, resolve_then, E, dispatch_L1, length_snoc.
  replace (Datatypes.S (length w)) with (length w + 1)%nat by lia. reflexivity.
Qed.

(** X8: [placeOrder] on a symbol resolved to [i] signs one action, the order
    action made of the single wire built from the request and [i]; the
    vault address given to the signer is the one written into the payload:
    the caller's, or [null] when none was passed. *)
Theorem placeOrder_signs_what_it_sends (orderRequest : OrderRequest)
    (arg : field (option string)) (i : Z) (w : World) :
  sc_getAssetIndex (symbolConversion this) (length w) (coin orderRequest) = Some i ->
  let evs := events (placeOrder clock this orderRequest arg) w in
  let t := clock (length w + 1) in
  let act := OrderAct (orderWiresToOrderAction
                         [orderRequestToOrderWire orderRequest (Some i)]) in
  signed_actions evs = [act] /\
  In (EvSignL1 act (default_null arg) t) evs /\
  Forall (fun p => action p = act /\ nonce p = t /\
                   vaultAddress p = present (default_null arg)) (requests evs).
Proof.
  intros E. cbn zeta.
  destruct (dispatch_observed _ _ _ _ _ _ _ _ (placeOrder_run orderRequest arg i w E))
    as (Ha & Hin & Hr); try reflexivity.
  split; [exact Ha|]. split; [exact Hin|]. rewrite Hr.
  destruct (signL1Action _ _ _ _); repeat constructor.
Qed.

Lemma modifyOrder_run (oid : number) (orderRequest : OrderRequest) (i : Z)
    (w : World) :
  dir (length w) (coin orderRequest) = Some i ->
  let t := clock (length w + 1) in
  let act := ModifyAct MODIFY oid (orderRequestToOrderWire orderRequest (Some i)) in
  modifyOrder clock this oid orderRequest w =
  dispatch this (w ++ [EvResolve (coin orderRequest) (Some i)])
    (EvSignL1 act None t) (signL1Action (wallet this) act None t) act t absent.
Proof.
  intros E. cbn zeta. unfold modifyOrder. cbn zeta.
  rewrite try_catch_throw, resolve_then, E, dispatch_L1, length_snoc.
  replace (Datatypes.S (length w)) with (length w + 1)%nat by lia. reflexivity.
Qed.


Lemma updateLeverage_run (symbol leverageMode : string) (leverage : number) (i : Z)
    (w : World) :
  dir (length w) symbol = Some i ->
  let t := clock (length w + 1) in
  let act := UpdateLeverageAct UPDATE_LEVERAGE i (String.eqb leverageMode "cross")
               leverage in
  updateLeverage clock this symbol leverageMode leverage w =
  dispatch this (w ++ [EvResolve symbol (Some i)])
    (EvSignL1 act None t) (signL1Action (wallet this) act None t) act t absent.
Proof.
  intros E. cbn zeta. unfold updateLeverage. cbn zeta.
  rewrite try_catch_throw, resolve_then, E, dispatch_L1, length_snoc.
  replace (Datatypes.S (length w)) with (length w + 1)%nat by lia. reflexivity.
Qed.

(** X10: [updateLeverage] asks for cross leverage exactly when
    [leverageMode] is the string ["cross"]; any other string, also one that
    differs only in case, gives isolated leverage.  The leverage and the
    resolved asset go into the action unchanged. *)
Theorem updateLeverage_cross_only_for_cross (symbol leverageMode : string)
    (leverage : number) (i : Z) (w : World) :
  sc_getAssetIndex (symbolConversion this) (length w) symbol = Some i ->
  exists isCross,
    signed_actions (events (updateLeverage clock this symbol leverageMode leverage) w) =
    [UpdateLeverageAct UPDATE_LEVERAGE i isCross leverage] /\
    (isCross = true <-> leverageMode = "cross"%string).
Proof.
  intros E. exists (String.eqb leverageMode "cross"). split.
  - destruct (dispatch_observed _ _ _ _ _ _ _ _
                (updateLeverage_run symbol leverageMode leverage i w E))
      as (Ha & _); try reflexivity. exact Ha.
  - apply String.eqb_eq.
Qed.

Lemma updateIsolatedMargin_run (symbol : string) (isBuy : bool) (ntli : number)
    (i : Z) (w : World) :
  dir (length w) symbol = Some i ->
  let t := clock (length w + 1) in
  let act := UpdateIsolatedMarginAct UPDATE_ISOLATED_MARGIN i isBuy ntli in
  updateIsolatedMargin clock this symbol isBuy ntli w =
  dispatch this (w ++ [EvResolve symbol (Some i)])
    (EvSignL1 act None t) (signL1Action (wallet this) act None t) act t absent.
Proof.
  intros E. cbn zeta. unfold updateIsolatedMargin. cbn zeta.
  rewrite try_catch_throw, resolve_then, E, dispatch_L1, length_snoc.
  replace (Datatypes.S (length w)) with (length w + 1)%nat by lia. reflexivity.
Qed.

(** X11: [updateIsolatedMargin(symbol, isBuy, ntli)] on a symbol resolved to
    [i] signs, with the L1 scheme and no vault address, the action
    [{type: UPDATE_ISOLATED_MARGIN, asset: i, isBuy, ntli}] with the
    caller's [isBuy] and [ntli] unchanged, under the clock reading as
    nonce. *)
Theorem updateIsolatedMargin_action (symbol : string) (isBuy : bool) (ntli : number)
    (i : Z) (w : World) :
  sc_getAssetIndex (symbolConversion this) (length w) symbol = Some i ->
  let evs := events (updateIsolatedMargin clock this symbol isBuy ntli) w in
  let t := clock (length w + 1) in
  let act := UpdateIsolatedMarginAct UPDATE_ISOLATED_MARGIN i isBuy ntli in
  signed_actions evs = [act] /\
  In (EvSignL1 act None t) evs /\
  Forall (fun p => action p = act /\ nonce p = t /\ vaultAddress p = absent)
    (requests evs).
Proof.
  intros E. cbn zeta.
  destruct (dispatch_observed _ _ _ _ _ _ _ _
              (updateIsolatedMargin_run symbol isBuy ntli i w E))
    as (Ha & Hin & Hr); try reflexivity.
  split; [exact Ha|]. split; [exact Hin|]. rewrite Hr.
  destruct (signL1Action _ _ _ _); repeat constructor.
Qed.

(** The same, for a computation that had nothing to resolve. *)
Lemma dispatch_observed_now (m : M Response) (w : World) (sev : Event)
    (r : result Signature) (act : Action) (t : Z) (vault : field (option string)) :
  m w = dispatch this w sev r act t vault ->
  signed_action sev = Some act -> request sev = None ->
  signed_actions (events m w) = [act] /\
  In sev (events m w) /\
  requests (events m w) =
  match r with
  | Ok sg => [{| action := act; nonce := t; signature := sg; vaultAddress := vault |}]
  | Throw _ => []
  end.
Proof.
  intros Hrun Ha Hr. apply (dispatch_observed m w [] sev r act t vault); try reflexivity;
    try assumption.
  rewrite app_nil_r. exact Hrun.
Qed.

Lemma dispatch_nonce_now (m : M Response) (w : World) (sev : Event)
    (r : result Signature) (act : Action) (t : Z) (vault : field (option string)) :
  m w = dispatch this w sev r act t vault ->
  sign_nonce sev = Some t -> nonces (events m w) = [t].
Proof.
  intros Hrun Hn. unfold dispatch in Hrun. destruct r as [sg|e].
  - assert (snd (m w) = w ++ [EvNow t; sev;
                EvRequest {| action := act; nonce := t; signature := sg;
                             vaultAddress := vault |} 1]) as Hsnd
      by (rewrite Hrun; reflexivity).
    rewrite (events_app _ _ _ Hsnd). unfold nonces. simpl. rewrite Hn. reflexivity.
  - assert (snd (m w) = w ++ [EvNow t; sev]) as Hsnd by (rewrite Hrun; reflexivity).
    rewrite (events_app _ _ _ Hsnd). unfold nonces. simpl. rewrite Hn. reflexivity.
Qed.

Lemma vaultTransfer_run (vaultAddress : string) (isDeposit : bool) (usd : number)
    (w : World) :
  let t := clock (length w) in
  let act := VaultTransferAct VAULT_TRANSFER vaultAddress isDeposit usd in
  vaultTransfer clock this vaultAddress isDeposit usd w =
  dispatch this w (EvSignL1 act None t) (signL1Action (wallet this) act None t)
    act t absent.
Proof.
  cbn zeta. unfold vaultTransfer. cbn zeta. rewrite try_catch_throw. apply dispatch_L1.
Qed.

(** X12: in [vaultTransfer] the vault address travels inside the action
    only: the L1 signature is asked for with [null] as vault address and the
    payload has no [vaultAddress] key. *)
Theorem vaultTransfer_vault_is_in_the_action (vault : string)
    (isDeposit : bool) (usd : number) (w : World) :
  let evs := events (vaultTransfer clock this vault isDeposit usd) w in
  let t := clock (length w) in
  let act := VaultTransferAct VAULT_TRANSFER vault isDeposit usd in
  signed_actions evs = [act] /\
  In (EvSignL1 act None t) evs /\
  Forall (fun p => action p = act /\ nonce p = t /\ vaultAddress p = absent)
    (requests evs).
Proof.
  cbn zeta.
  destruct (dispatch_observed_now _ _ _ _ _ _ _
              (vaultTransfer_run vault isDeposit usd w))
    as (Ha & Hin & Hr); try reflexivity.
  split; [exact Ha|]. split; [exact Hin|]. rewrite Hr.
  destruct (signL1Action _ _ _ _); repeat constructor.
Qed.

Lemma scheduleCancel_run (time : number) (w : World) :
  let t := clock (length w) in
  let act := ScheduleCancelAct SCHEDULE_CANCEL time in
  scheduleCancel clock this time w =
  dispatch this w (EvSignL1 act None t) (signL1Action (wallet this) act None t)
    act t absent.
Proof.
  cbn zeta. unfold scheduleCancel. cbn zeta. rewrite try_catch_throw. apply dispatch_L1.
Qed.

Lemma setReferrer_run (code : string) (w : World) :
  let t := clock (length w) in
  let act := SetReferrerAct SET_REFERRER code in
  setReferrer clock this code w =
  dispatch this w (EvSignL1 act None t) (signL1Action (wallet this) act None t)
    act t absent.
Proof.
  cbn zeta. unfold setReferrer. cbn zeta. rewrite try_catch_throw. apply dispatch_L1.
Qed.

(** X13: [scheduleCancel(time)] and [setReferrer(code)] sign, with the L1
    scheme and no vault address, the actions [{type: SCHEDULE_CANCEL, time}]
    and [{type: SET_REFERRER, code}] carrying the caller's argument
    unchanged.  The [time] of a scheduled cancel is the caller's and is not
    the nonce: the nonce is the clock reading of the call. *)
Theorem scheduleCancel_and_setReferrer_actions (w : World) :
  let t := clock (length w) in
  (forall time : number,
     let evs := events (scheduleCancel clock this time) w in
     let act := ScheduleCancelAct SCHEDULE_CANCEL time in
     signed_actions evs = [act] /\ nonces evs = [t] /\
     In (EvSignL1 act None t) evs /\
     Forall (fun p => action p = act /\ nonce p = t /\ vaultAddress p = absent)
       (requests evs)) /\
  (forall code : string,
     let evs := events (setReferrer clock this code) w in
     let act := SetReferrerAct SET_REFERRER code in
     signed_actions evs = [act] /\ nonces evs = [t] /\
     In (EvSignL1 act None t) evs /\
     Forall (fun p => action p = act /\ nonce p = t /\ vaultAddress p = absent)
       (requests evs)).
Proof.
  cbn zeta. split.
  - intros time.
    destruct (dispatch_observed_now _ _ _ _ _ _ _ (scheduleCancel_run time w))
      as (Ha & Hin & Hr); try reflexivity.
    pose proof (dispatch_nonce_now _ _ _ _ _ _ _ (scheduleCancel_run time w) eq_refl)
      as Hn.
    split; [exact Ha|]. split; [exact Hn|]. split; [exact Hin|]. rewrite Hr.
    destruct (signL1Action _ _ _ _); repeat constructor.
  - intros code.
    destruct (dispatch_observed_now _ _ _ _ _ _ _ (setReferrer_run code w))
      as (Ha & Hin & Hr); try reflexivity.
    pose proof (dispatch_nonce_now _ _ _ _ _ _ _ (setReferrer_run code w) eq_refl)
      as Hn.
    split; [exact Ha|]. split; [exact Hn|]. split; [exact Hin|]. rewrite Hr.
    destruct (signL1Action _ _ _ _); repeat constructor.
Qed.

Lemma spotTransfer_run (destination token amount : string) (w : World) :
  let t := clock (length w) in
  let act := SpotSendAct SPOT_SEND "Mainnet" "0xa4b1" destination token amount t in
  let types := [ {| tf_name := "hyperliquidChain"; tf_type := "string" |};
                 {| tf_name := "destination"; tf_type := "string" |};
                 {| tf_name := "token"; tf_type := "string" |};
                 {| tf_name := "amount"; tf_type := "string" |};
                 {| tf_name := "time"; tf_type := "uint64" |} ] in
  spotTransfer clock this destination token amount w =
  dispatch this w (EvSignUserSigned act types "HyperliquidTransaction:SpotSend")
    (signUserSignedAction (wallet this) act types "HyperliquidTransaction:SpotSend")
    act t absent.
Proof.
  cbn zeta. unfold spotTransfer. rewrite try_catch_throw.
  unfold bind, Date_now, await_signUserSignedAction, httpApi_makeRequest, outside,
    dispatch; simpl.
  destruct (signUserSignedAction _ _ _ _);
    rewrite ?length_snoc, <- ?app_assoc; simpl;
    rewrite ?Nat.add_succ_r, ?Nat.add_0_r; reflexivity.
Qed.

(** X14: [spotTransfer(destination, token, amount)] builds the action
    [{type: SPOT_SEND, hyperliquidChain: 'Mainnet', signatureChainId:
    '0xa4b1', destination, token, amount, time}] with the caller's three
    strings unchanged and the clock reading as [time], and signs it with
    [signUserSignedAction] under the primary type
    ['HyperliquidTransaction:SpotSend'] and the typed fields
    hyperliquidChain, destination, token, amount (strings) and time
    (uint64), in this order; the payload carries that action and its [time]
    as nonce. *)
Theorem spotTransfer_typed_data (destination token amount : string) (w : World) :
  let evs := events (spotTransfer clock this destination token amount) w in
  let t := clock (length w) in
  let act := SpotSendAct SPOT_SEND "Mainnet" "0xa4b1" destination token amount t in
  signed_actions evs = [act] /\
  (exists types,
     In (EvSignUserSigned act types "HyperliquidTransaction:SpotSend") evs /\
     map tf_name types =
       ["hyperliquidChain"; "destination"; "token"; "amount"; "time"]%string /\
     map tf_type types = ["string"; "string"; "string"; "string"; "uint64"]%string) /\
  Forall (fun p => action p = act /\ nonce p = t /\ vaultAddress p = absent)
    (requests evs).
Proof.
  cbn zeta.
  destruct (dispatch_observed_now _ _ _ _ _ _ _
              (spotTransfer_run destination token amount w))
    as (Ha & Hin & Hr); try reflexivity.
  split; [exact Ha|]. split.
  - eexists. split; [exact Hin|]. split; reflexivity.
  - rewrite Hr. destruct (signUserSignedAction _ _ _ _); repeat constructor.
Qed.


Lemma initiateWithdrawal_run (destination : string) (amount : number) (w : World) :
  let t := clock (length w) in
  let act := SendAct WITHDRAW "Mainnet" "0xa4b1" destination (Number.toString amount) t in
  initiateWithdrawal clock this destination amount w =
  dispatch this w (EvSignWithdraw act) (signWithdrawFromBridgeAction (wallet this) act)
    act t absent.
Proof.
  cbn zeta. unfold initiateWithdrawal. rewrite try_catch_throw.
  generalize (Number.toString amount). intros printed.
  unfold bind, Date_now, await_signWithdrawFromBridgeAction, httpApi_makeRequest,
    outside, dispatch; simpl.
  destruct (signWithdrawFromBridgeAction _ _);
    rewrite ?length_snoc, <- ?app_assoc; simpl;
    rewrite ?Nat.add_succ_r, ?Nat.add_0_r; reflexivity.
Qed.


(** X18: [initiateWithdrawal(destination, amount)] builds the action
    [{type: WITHDRAW, hyperliquidChain: 'Mainnet', signatureChainId:
    '0xa4b1', destination, amount: amount.toString(), time}] with the clock
    reading as [time], signs it with [signWithdrawFromBridgeAction] and
    uses that [time] as the nonce of the payload; for an integer amount
    [n], [|n| < 2^53], the [amount] is the plain decimal numeral of [n]. *)
Theorem initiateWithdrawal_integer_amount (destination : string) (n : Z) (w : World) :
  Z.abs n < 2 ^ 53 ->
  let evs := events (initiateWithdrawal clock this destination (Z2number n)) w in
  let t := clock (length w) in
  let printed := String.append (if n <? 0 then "-" else "") (Number.decimal (Z.abs n)) in
  let act := SendAct WITHDRAW "Mainnet" "0xa4b1" destination printed t in
  signed_actions evs = [act] /\
  In (EvSignWithdraw act) evs /\
  Forall (fun p => action p = act /\ nonce p = t /\ vaultAddress p = absent)
    (requests evs).
Proof.
  intros Hn. cbn zeta. rewrite <- (toString_integer n Hn).
  destruct (dispatch_observed_now _ _ _ _ _ _ _
              (initiateWithdrawal_run destination (Z2number n) w))
    as (Ha & Hin & Hr); try reflexivity.
  split; [exact Ha|]. split; [exact Hin|]. rewrite Hr.
  destruct (signWithdrawFromBridgeAction _ _); repeat constructor.
Qed.

(** *** Batches, entry by entry *)

Lemma zip_with_resolved_lookup {A B} (f : A -> Z -> B) (g : A -> string)
    (xs : list A) :
  forall (n : nat) (l : list Z) (k : nat) (x : A),
    resolved (answers this n (map g xs)) = Some l ->
    xs !! k = Some x ->
    exists i, dir (n + k) (g x) = Some i /\ zip_with f xs l !! k = Some (f x i).
Proof.
  induction xs as [|x0 xs IH]; intros n l k x E Hk; [discriminate|].
  simpl in E. destruct (dir n (g x0)) as [i0|] eqn:E0; [|discriminate].
  destruct (resolved (answers this (Datatypes.S n) (map g xs))) as [l'|] eqn:E';
    [|discriminate].
  injection E as <-. destruct k as [|k]; simpl in *.
  - injection Hk as <-. exists i0. rewrite Nat.add_0_r. auto.
  - destruct (IH _ _ _ _ E' Hk) as (i & Hi & Hz). exists i. split; [|exact Hz].
    rewrite <- Hi. f_equal. lia.
Qed.

Lemma failed_run_signs_nothing (m : M Response) (w : World) (syms : list string)
    (ans : list (option Z)) (e : thrown) :
  m w = (Throw e, w ++ resolve_events syms ans) ->
  signed_actions (events m w) = [].
Proof.
  intros Hrun.
  assert (snd (m w) = w ++ resolve_events syms ans) as Hsnd by (rewrite Hrun; reflexivity).
  rewrite (events_app _ _ _ Hsnd). apply omap_resolve_events. reflexivity.
Qed.

(** X15: the action signed by [cancelOrder] is [{type: CANCEL, cancels}]
    with one entry per request; the [k]-th entry is [{a, o}] with the [o] of
    the [k]-th request and, as [a], the index the directory gave for the
    [k]-th request's coin at the [k]-th lookup of the call. *)
Theorem cancelOrder_entries_by_position (cancelRequests : OneOrMany CancelOrderRequest)
    (w : World) (act : Action) :
  In act (signed_actions (events (cancelOrder clock this cancelRequests) w)) ->
  exists entries,
    act = CancelAct CANCEL entries /\
    length entries = length (toArray cancelRequests) /\
    forall k req,
      toArray cancelRequests !! k = Some req ->
      exists i,
        sc_getAssetIndex (symbolConversion this) (length w + k) (cr_coin req) = Some i /\
        entries !! k = Some {| a := i; o := cr_o req |}.
Proof.
  intros Hin. pose proof (cancelOrder_run clock this cancelRequests w) as Hrun.
  cbn zeta in Hrun. destruct (resolved _) as [l|] eqn:E.
  - destruct (dispatch_observed _ _ _ _ _ _ _ _ Hrun) as (Ha & _); try reflexivity;
      try (apply omap_resolve_events; reflexivity).
    rewrite Ha in Hin. destruct Hin as [<-|[]].
    eexists. split; [reflexivity|]. split.
    + rewrite length_zip_with, (resolved_length _ _ E), answers_length, length_map. lia.
    + intros k req Hk.
      apply (zip_with_resolved_lookup (fun req i => {| a := i; o := cr_o req |})
               cr_coin _ _ _ _ _ E Hk).
  - rewrite (failed_run_signs_nothing _ _ _ _ _ Hrun) in Hin. destruct Hin.
Qed.

(** X16: the action signed by [batchModifyOrders] is
    [{type: BATCH_MODIFY, modifies}] with one entry per request; the [k]-th
    entry carries the [oid] of the [k]-th request and the wire built from
    the [k]-th order and the index the directory gave for that order's coin
    at the [k]-th lookup of the call. *)
Theorem batchModifyOrders_entries_by_position (modifies : list ModifyRequest)
    (w : World) (act : Action) :
  In act (signed_actions (events (batchModifyOrders clock this modifies) w)) ->
  exists entries,
    act = BatchModifyAct BATCH_MODIFY entries /\
    length entries = length modifies /\
    forall k m,
      modifies !! k = Some m ->
      exists i,
        sc_getAssetIndex (symbolConversion this) (length w + k) (coin (mr_order m))
          = Some i /\
        entries !! k =
        Some {| oid := mr_oid m;
                order := orderRequestToOrderWire (mr_order m) (Some i) |}.
Proof.
  intros Hin. pose proof (batchModifyOrders_run clock this modifies w) as Hrun.
  cbn zeta in Hrun. destruct (resolved _) as [l|] eqn:E.
  - destruct (dispatch_observed _ _ _ _ _ _ _ _ Hrun) as (Ha & _); try reflexivity;
      try (apply omap_resolve_events; reflexivity).
    rewrite Ha in Hin. destruct Hin as [<-|[]].
    eexists. split; [reflexivity|]. split.
    + rewrite length_zip_with, (resolved_length _ _ E), answers_length, length_map. lia.
    + intros k m Hk.
      apply (zip_with_resolved_lookup
               (fun m i => {| oid := mr_oid m;
                              order := orderRequestToOrderWire (mr_order m) (Some i) |})
               (fun m => coin (mr_order m)) _ _ _ _ _ E Hk).
  - rewrite (failed_run_signs_nothing _ _ _ _ _ Hrun) in Hin. destruct Hin.
Qed.

End Methods.

(** ** The index a call embeds *)

Section Consistency.

Context {P : Platform} {S : Signing}.
Variable clock : nat -> Z.
Variable this : ExchangeAPI.

Local Abbreviation dir := (sc_getAssetIndex (symbolConversion this)).

Lemma known_resolved (syms : list string) :
  forall k,
    (forall j s, syms !! j = Some s -> is_Some (dir (k + j) s)) ->
    exists l, resolved (answers this k syms) = Some l.
Proof.
  induction syms as [|s syms IH]; intros k H; simpl; [eauto|].
  destruct (H 0%nat s eq_refl) as [i Hi]. rewrite Nat.add_0_r in Hi. rewrite Hi.
  destruct (IH (Datatypes.S k)) as [l Hl].
  - intros j s' Hj. specialize (H (Datatypes.S j) s' Hj).
    rewrite Nat.add_succ_r in H. exact H.
  - rewrite Hl. eauto.
Qed.

Lemma cancelOrderByCloid_run (symbol cloid : string) (i : Z) (w : World) :
  dir (length w) symbol = Some i ->
  let t := clock (length w + 1) in
  let act := CancelByCloidAct CANCEL_BY_CLOID [{| asset := i; cloid := cloid |}] in
  cancelOrderByCloid clock this symbol cloid w =
  dispatch this (w ++ [EvResolve symbol (Some i)])
    (EvSignL1 act None t) (signL1Action (wallet this) act None t) act t absent.
Proof.
  intros E. cbn zeta. unfold cancelOrderByCloid. cbn zeta.
  rewrite try_catch_throw, resolve_then, E, dispatch_L1, length_snoc.
  replace (Datatypes.S (length w)) with (length w + 1)%nat by lia. reflexivity.
Qed.

(** A call whose run is known signs the action of that run. *)
Lemma signed_action_of_run (m : M Response) (w : World) (pre : list Event)
    (sev : Event) (r : result Signature) (act act' : Action) (t : Z)
    (vault : field (option string)) :
  m w = dispatch this (w ++ pre) sev r act' t vault ->
  omap signed_action pre = [] -> omap request pre = [] ->
  signed_action sev = Some act' -> request sev = None ->
  signed_actions (events m w) = [act] -> act = act'.
Proof.
  intros Hrun Hpa Hpr Ha Hr Hsg.
  destruct (dispatch_observed this m w pre sev r act' t vault Hrun Hpa Hpr Ha Hr)
    as (Hsg' & _).
  rewrite Hsg' in Hsg. injection Hsg as ->. reflexivity.
Qed.

(** C4: when the directory knows every symbol of a call, the call asks it
    once for each symbol, in the order of its entries, and signs one action
    (the one it dispatches).  The index embedded in that action is the
    answer the directory gave to the lookup made for that symbol: for an
    operation on one symbol it is the answer to the single lookup, and in a
    batch the [k]-th entry carries the [k]-th request's own fields together
    with the answer to the [k]-th lookup, which was made for the [k]-th
    request's symbol.  Nothing is looked up a second time. *)
Theorem resolved_index_is_embedded (c : Call) (w : World) :
  (forall k s, symbols c !! k = Some s ->
               is_Some (sc_getAssetIndex (symbolConversion this) (length w + k) s)) ->
  let evs := events (call clock this c) w in
  length (resolutions evs) = length (symbols c) /\
  (forall k s, symbols c !! k = Some s ->
     resolutions evs !! k =
     Some (s, sc_getAssetIndex (symbolConversion this) (length w + k) s)) /\
  exists act,
    signed_actions evs = [act] /\
    Forall (fun p => action p = act) (requests evs) /\
    (wire_law P -> order_action_law P ->
     action_assets act = map snd (resolutions evs)) /\
    match c with
    | PlaceOrder orderRequest _ =>
        exists i,
          sc_getAssetIndex (symbolConversion this) (length w) (coin orderRequest)
            = Some i /\
          act = OrderAct (orderWiresToOrderAction
                            [orderRequestToOrderWire orderRequest (Some i)])
    | CancelOrder cancelRequests =>
        exists entries,
          act = CancelAct CANCEL entries /\
          length entries = length (toArray cancelRequests) /\
          forall k req,
            toArray cancelRequests !! k = Some req ->
            exists i,
              sc_getAssetIndex (symbolConversion this) (length w + k) (cr_coin req)
                = Some i /\
              entries !! k = Some {| a := i; o := cr_o req |}
    | CancelOrderByCloid symbol cloid =>
        exists i,
          sc_getAssetIndex (symbolConversion this) (length w) symbol = Some i /\
          act = CancelByCloidAct CANCEL_BY_CLOID [{| asset := i; cloid := cloid |}]
    | ModifyOrder oid orderRequest =>
        exists i,
          sc_getAssetIndex (symbolConversion this) (length w) (coin orderRequest)
            = Some i /\
          act = ModifyAct MODIFY oid (orderRequestToOrderWire orderRequest (Some i))
    | BatchModifyOrders modifies =>
        exists entries,
          act = BatchModifyAct BATCH_MODIFY entries /\
          length entries = length modifies /\
          forall k m,
            modifies !! k = Some m ->
            exists i,
              sc_getAssetIndex (symbolConversion this) (length w + k)
                (coin (mr_order m)) = Some i /\
              entries !! k =
              Some {| oid := mr_oid m;
                      order := orderRequestToOrderWire (mr_order m) (Some i) |}
    | UpdateLeverage symbol leverageMode leverage =>
        exists i,
          sc_getAssetIndex (symbolConversion this) (length w) symbol = Some i /\
          act = UpdateLeverageAct UPDATE_LEVERAGE i (String.eqb leverageMode "cross")
                  leverage
    | UpdateIsolatedMargin symbol isBuy ntli =>
        exists i,
          sc_getAssetIndex (symbolConversion this) (length w) symbol = Some i /\
          act = UpdateIsolatedMarginAct UPDATE_ISOLATED_MARGIN i isBuy ntli
    | _ => True
    end.
Proof.
  intros Hknown evs.
  destruct (known_resolved (symbols c) (length w) Hknown) as [l El].
  destruct (call_summary clock this c w) as (_ & Hres & H).
  fold evs in Hres, H. rewrite El in H.
  destruct H as (act & _ & _ & Hsg & _ & _ & Hassets & Hrq).
  split.
  { rewrite Hres, length_zip, answers_length. lia. }
  split.
  { intros k s Hk. rewrite Hres. apply zip_answers_lookup, Hk. }
  exists act. split; [exact Hsg|]. split.
  { destruct Hrq as [->|[sg ->]]; repeat constructor. }
  split.
  { intros HW HA. rewrite Hres, (Hassets HW HA), <- (resolved_answers _ _ El).
    symmetry. apply snd_zip. rewrite answers_length. reflexivity. }
  assert (forall s, symbols c = [s] -> exists i, dir (length w) s = Some i) as Hone.
  { intros s Hs. destruct (Hknown 0%nat s) as [i Hi]; [rewrite Hs; reflexivity|].
    rewrite Nat.add_0_r in Hi. eauto. }
  destruct c as [r v|rs|sym cl|od r|ms|sym lm lev|sym b n|? ?|? ? ?|? ?|? ?|?|? ? ?|?];
    try exact I; simpl call in evs.
  - (* placeOrder *)
    destruct (Hone _ eq_refl) as [i Hi]. exists i. split; [exact Hi|].
    apply (signed_action_of_run _ _ _ _ _ _ _ _ _
             (placeOrder_run clock this r v i w Hi)
             eq_refl eq_refl eq_refl eq_refl Hsg).
  - (* cancelOrder *)
    pose proof (cancelOrder_run clock this rs w) as Hrun.
    cbn zeta in Hrun. simpl symbols in El. rewrite El in Hrun.
    eexists. split.
    + apply (signed_action_of_run _ _ _ _ _ _ _ _ _ Hrun); try reflexivity;
        try exact Hsg; apply omap_resolve_events; reflexivity.
    + split.
      * rewrite length_zip_with, (resolved_length _ _ El), answers_length, length_map.
        lia.
      * intros k req Hk.
        apply (zip_with_resolved_lookup this
                 (fun req i => {| a := i; o := cr_o req |}) cr_coin _ _ _ _ _ El Hk).
  - (* cancelOrderByCloid *)
    destruct (Hone _ eq_refl) as [i Hi]. exists i. split; [exact Hi|].
    apply (signed_action_of_run _ _ _ _ _ _ _ _ _
             (cancelOrderByCloid_run sym cl i w Hi)
             eq_refl eq_refl eq_refl eq_refl Hsg).
  - (* modifyOrder *)
    destruct (Hone _ eq_refl) as [i Hi]. exists i. split; [exact Hi|].
    apply (signed_action_of_run _ _ _ _ _ _ _ _ _
             (modifyOrder_run clock this od r i w Hi)
             eq_refl eq_refl eq_refl eq_refl Hsg).
  - (* batchModifyOrders *)
    pose proof (batchModifyOrders_run clock this ms w) as Hrun.
    cbn zeta in Hrun. simpl symbols in El. rewrite El in Hrun.
    eexists. split.
    + apply (signed_action_of_run _ _ _ _ _ _ _ _ _ Hrun); try reflexivity;
        try exact Hsg; apply omap_resolve_events; reflexivity.
    + split.
      * rewrite length_zip_with, (resolved_length _ _ El), answers_length, length_map.
        lia.
      * intros k m Hk.
        apply (zip_with_resolved_lookup this
                 (fun m i => {| oid := mr_oid m;
                                order := orderRequestToOrderWire (mr_order m) (Some i) |})
                 (fun m => coin (mr_order m)) _ _ _ _ _ El Hk).
  - (* updateLeverage *)
    destruct (Hone _ eq_refl) as [i Hi]. exists i. split; [exact Hi|].
    apply (signed_action_of_run _ _ _ _ _ _ _ _ _
             (updateLeverage_run clock this sym lm lev i w Hi)
             eq_refl eq_refl eq_refl eq_refl Hsg).
  - (* updateIsolatedMargin *)
    destruct (Hone _ eq_refl) as [i Hi]. exists i. split; [exact Hi|].
    apply (signed_action_of_run _ _ _ _ _ _ _ _ _
             (updateIsolatedMargin_run clock this sym b n i w Hi)
             eq_refl eq_refl eq_refl eq_refl Hsg).
Qed.

End Consistency.

(** ** Scaling to micro-units and racing lookups *)

Section Edge.

Context {P : Platform} {S : Signing}.
Variable clock : nat -> Z.
Variable this : ExchangeAPI.

Local Abbreviation dir := (sc_getAssetIndex (symbolConversion this)).
Local Abbreviation settles := (sc_settles (symbolConversion this)).

(** X19: [transferBetweenSpotAndPerp(usdc, toPerp)] called with an integer
    [usdc = n], [|n| * 10^6 < 2^53], signs the action whose
    [classTransfer.usdc] is exactly the integer [n * 10^6] (50 gives
    50000000) and whose [toPerp] is the given boolean, with the L1 scheme,
    no vault address and the clock reading as nonce. *)
Theorem transferBetweenSpotAndPerp_integer_usdc (n : Z) (toPerp : bool) (w : World) :
  Z.abs n * 1000000 < 2 ^ 53 ->
  let evs := events (transferBetweenSpotAndPerp clock this (Z2number n) toPerp) w in
  let t := clock (length w) in
  let act := SpotUserAct SPOT_USER
               {| usdc := Z2number (n * 1000000); toPerp := toPerp |} in
  signed_actions evs = [act] /\
  In (EvSignL1 act None t) evs /\
  Forall (fun p => action p = act /\ nonce p = t /\ vaultAddress p = absent)
    (requests evs).
Proof.
  intros Hn. cbn zeta. rewrite <- (mul_1e6_exact n Hn).
  assert (transferBetweenSpotAndPerp clock this (Z2number n) toPerp w =
          dispatch this w
            (EvSignL1 (SpotUserAct SPOT_USER
                         {| usdc := (Z2number n * 1e6)%float; toPerp := toPerp |})
               None (clock (length w)))
            (signL1Action (wallet this)
               (SpotUserAct SPOT_USER
                  {| usdc := (Z2number n * 1e6)%float; toPerp := toPerp |})
               None (clock (length w)))
            (SpotUserAct SPOT_USER
               {| usdc := (Z2number n * 1e6)%float; toPerp := toPerp |})
            (clock (length w)) absent) as Hrun.
  { unfold transferBetweenSpotAndPerp. rewrite try_catch_throw. apply dispatch_L1. }
  destruct (dispatch_observed_now _ _ _ _ _ _ _ _ Hrun) as (Ha & Hin & Hr);
    try reflexivity.
  split; [exact Ha|]. split; [exact Hin|]. rewrite Hr.
  destruct (signL1Action _ _ _ _); repeat constructor.
Qed.

Lemma no_settled_unknown (syms : list string) :
  forall k j s,
    first_settled_unknown this k syms = None ->
    syms !! j = Some s -> dir (k + j) s <> None.
Proof.
  induction syms as [|s0 syms IH]; intros k j s H Hj; [discriminate|].
  simpl in H. destruct (dir k s0) as [i0|] eqn:E0.
  - destruct j as [|j]; simpl in Hj.
    + injection Hj as <-. rewrite Nat.add_0_r, E0. discriminate.
    + rewrite Nat.add_succ_r. apply (IH (Datatypes.S k) j s H Hj).
  - destruct (first_settled_unknown this (Datatypes.S k) syms) as [[m s']|];
      [destruct (m <? _)%nat|]; discriminate.
Qed.

(** The unknown symbol [first_settled_unknown] names: its position, and
    that no lookup without an answer settles before it. *)
Lemma first_settled_unknown_first (syms : list string) :
  forall k m s,
    first_settled_unknown this k syms = Some (m, s) ->
    exists i,
      syms !! i = Some s /\ dir (k + i) s = None /\ m = settles (k + i) /\
      forall j s',
        syms !! j = Some s' -> dir (k + j) s' = None ->
        (m <= settles (k + j))%nat /\ (m = settles (k + j) -> (i <= j)%nat).
Proof.
  induction syms as [|s0 syms IH]; intros k m s H; [discriminate|].
  simpl in H.
  destruct (first_settled_unknown this (Datatypes.S k) syms) as [[m' s']|] eqn:El.
  - destruct (IH _ _ _ El) as (i & Hi & Hd & Hm & Hmin).
    destruct (dir k s0) as [i0|] eqn:E0;
      [|destruct (m' <? settles k)%nat eqn:Elt].
    + injection H as <- <-. exists (Datatypes.S i). rewrite Nat.add_succ_r.
      split; [exact Hi|]. split; [exact Hd|]. split; [exact Hm|].
      intros [|j] s'' Hj Hu; simpl in Hj.
      * injection Hj as <-. rewrite Nat.add_0_r, E0 in Hu. discriminate.
      * rewrite Nat.add_succ_r in Hu |- *.
        destruct (Hmin j s'' Hj Hu) as [Hle Htie]. split; [exact Hle|].
        intros Heq. specialize (Htie Heq). lia.
    + injection H as <- <-. apply Nat.ltb_lt in Elt.
      exists (Datatypes.S i). rewrite Nat.add_succ_r.
      split; [exact Hi|]. split; [exact Hd|]. split; [exact Hm|].
      intros [|j] s'' Hj Hu; simpl in Hj.
      * rewrite Nat.add_0_r. lia.
      * rewrite Nat.add_succ_r in Hu |- *.
        destruct (Hmin j s'' Hj Hu) as [Hle Htie]. split; [exact Hle|].
        intros Heq. specialize (Htie Heq). lia.
    + injection H as <- <-. apply Nat.ltb_ge in Elt.
      exists 0%nat. rewrite Nat.add_0_r.
      split; [reflexivity|]. split; [exact E0|]. split; [reflexivity|].
      intros [|j] s'' Hj Hu; simpl in Hj.
      * rewrite Nat.add_0_r. lia.
      * rewrite Nat.add_succ_r in Hu |- *.
        destruct (Hmin j s'' Hj Hu) as [Hle _]. simpl in Hle. split; lia.
  - destruct (dir k s0) as [i0|] eqn:E0; [discriminate|].
    injection H as <- <-. exists 0%nat. rewrite Nat.add_0_r.
    split; [reflexivity|]. split; [exact E0|]. split; [reflexivity|].
    intros [|j] s'' Hj Hu; simpl in Hj.
    + rewrite Nat.add_0_r. lia.
    + rewrite Nat.add_succ_r in Hu.
      destruct (no_settled_unknown syms (Datatypes.S k) j s'' El Hj Hu).
Qed.

(** X20: when a call refers to symbols the directory does not know, the
    error it rejects with names the unknown symbol whose lookup settles
    first, wherever that symbol stands among the call's entries: no other
    lookup without an answer settles earlier, and of those that settle at
    the same moment it is the first in the array. *)
Theorem unknown_symbol_error_names_first_settled (c : Call) (w : World) (i : nat)
    (s : string) :
  symbols c !! i = Some s ->
  sc_getAssetIndex (symbolConversion this) (length w + i) s = None ->
  exists j s',
    symbols c !! j = Some s' /\
    sc_getAssetIndex (symbolConversion this) (length w + j) s' = None /\
    fst (call clock this c w) = Throw (Error ("Unknown asset: " ++ s')%string) /\
    forall j' s'',
      symbols c !! j' = Some s'' ->
      sc_getAssetIndex (symbolConversion this) (length w + j') s'' = None ->
      (sc_settles (symbolConversion this) (length w + j) <=
       sc_settles (symbolConversion this) (length w + j'))%nat /\
      (sc_settles (symbolConversion this) (length w + j) =
       sc_settles (symbolConversion this) (length w + j') -> (j <= j')%nat).
Proof.
  intros Hi Hs.
  pose proof (call_outcome clock this c w) as H. cbn zeta in H.
  rewrite (unknown_unresolved this _ _ _ _ Hi Hs) in H.
  destruct H as (s' & Hfirst & Hrun).
  unfold first_unknown in Hfirst.
  destruct (first_settled_unknown this (length w) (symbols c)) as [[m s'']|] eqn:E;
    [|discriminate].
  injection Hfirst as ->.
  destruct (first_settled_unknown_first _ _ _ _ E) as (j & Hj & Hd & Hm & Hmin).
  exists j, s'. split; [exact Hj|]. split; [exact Hd|]. split.
  - rewrite Hrun. reflexivity.
  - rewrite <- Hm. exact Hmin.
Qed.

End Edge.

(** * Concrete runs

    The statements above, on the small platform of [Demo]. *)

#[local] Existing Instance Demo.platform.
#[local] Existing Instance Demo.signing.

(** Two calls on the same instance while the clock stays within one
    millisecond: [placeOrder] and then [cancelOrder] sign under the same
    nonce, so the second nonce is not greater than the first. *)
Lemma same_millisecond_same_nonce :
  let first := PlaceOrder Demo.btc_buy absent in
  let second := CancelOrder (One {| cr_coin := "ETH"; cr_o := 7%float |}) in
  let w1 := snd (call Demo.frozen Demo.api first []) in
  nonces (events (call Demo.frozen Demo.api first) []) = [1700000000000] /\
  nonces (events (call Demo.frozen Demo.api second) w1) = [1700000000000] /\
  ~ (1700000000000 > 1700000000000).
Proof. cbn zeta. split; [|split]; [vm_compute; reflexivity ..|lia]. Qed.

Lemma nonce_order_follows_clock_witness :
  let first := PlaceOrder Demo.btc_buy absent in
  let second := CancelOrder (One {| cr_coin := "ETH"; cr_o := 7%float |}) in
  let w1 := snd (call Demo.ticking Demo.api first []) in
  Forall (fun p => nonce p = 1700000000001)
    (requests (events (call Demo.ticking Demo.api first) [])) /\
  Forall (fun p => nonce p = 1700000000005)
    (requests (events (call Demo.ticking Demo.api second) w1)) /\
  exists k1 k2,
    (k1 < k2)%nat /\ 1700000000001 = Demo.ticking k1 /\
    1700000000005 = Demo.ticking k2 /\
    ((forall i j, (i <= j)%nat -> Demo.ticking i <= Demo.ticking j) ->
     1700000000001 <= 1700000000005) /\
    (Demo.ticking k1 < Demo.ticking k2 -> 1700000000001 < 1700000000005) /\
    (Demo.ticking k1 = Demo.ticking k2 -> 1700000000001 = 1700000000005).
Proof.
  apply (nonce_order_follows_clock Demo.ticking Demo.api
           (PlaceOrder Demo.btc_buy absent)
           (CancelOrder (One {| cr_coin := "ETH"; cr_o := 7%float |})) []);
    vm_compute; left; reflexivity.
Defined.

Lemma unknown_symbol_fails_before_signing_witness :
  let c := CancelOrder (Many [ {| cr_coin := "ETH"; cr_o := 7%float |};
                               {| cr_coin := "XRP"; cr_o := 8%float |};
                               {| cr_coin := "BTC"; cr_o := 9%float |} ]) in
  let evs := events (call Demo.ticking Demo.api c) [] in
  (exists s' j,
     symbols c !! j = Some s' /\
     Demo.directory (0 + j) s' = None /\
     fst (call Demo.ticking Demo.api c []) = Throw (Error ("Unknown asset: " ++ s')%string)) /\
  snd (call Demo.ticking Demo.api c []) = [] ++ evs /\
  Forall (fun e => exists s' j, e = EvResolve s' j) evs /\
  clock_reads evs = [] /\ signed_actions evs = [] /\ requests evs = [].
Proof.
  exact (unknown_symbol_fails_before_signing Demo.ticking Demo.api
           (CancelOrder (Many [ {| cr_coin := "ETH"; cr_o := 7%float |};
                                {| cr_coin := "XRP"; cr_o := 8%float |};
                                {| cr_coin := "BTC"; cr_o := 9%float |} ]))
           [] 1%nat "XRP" eq_refl eq_refl).
Defined.

Lemma batch_is_one_signed_request_witness :
  (let reqs := [ {| cr_coin := "ETH"; cr_o := 7%float |};
                 {| cr_coin := "BTC"; cr_o := 9%float |} ] in
   let entries := [ {| a := 1; o := 7%float |}; {| a := 3; o := 9%float |} ] in
   let evs := events (cancelOrder Demo.frozen Demo.api (Many reqs)) [] in
   clock_reads evs = [1700000000000] /\
   signed_actions evs = [CancelAct CANCEL entries] /\
   requests evs = [{| action := CancelAct CANCEL entries; nonce := 1700000000000;
                      signature := "sigL1"%string; vaultAddress := absent |}] /\
   length entries = length reqs /\
   map o entries = map cr_o reqs /\ map a entries = [1; 3]) /\
  (let modifies := [ {| mr_oid := 11%float; mr_order := Demo.btc_buy |};
                     {| mr_oid := 12%float; mr_order := Demo.eth_sell |} ] in
   let entries := [ {| oid := 11%float; order := Demo.wire (Some 3) Demo.btc_buy |};
                    {| oid := 12%float; order := Demo.wire (Some 1) Demo.eth_sell |} ] in
   let evs := events (batchModifyOrders Demo.frozen Demo.api modifies) [] in
   clock_reads evs = [1700000000000] /\
   signed_actions evs = [BatchModifyAct BATCH_MODIFY entries] /\
   requests evs = [{| action := BatchModifyAct BATCH_MODIFY entries;
                      nonce := 1700000000000; signature := "sigL1"%string;
                      vaultAddress := absent |}] /\
   length entries = length modifies /\
   map oid entries = map mr_oid modifies).
Proof.
  split.
  - exact (proj1 (batch_is_one_signed_request Demo.frozen Demo.api [])
             (Many [ {| cr_coin := "ETH"; cr_o := 7%float |};
                     {| cr_coin := "BTC"; cr_o := 9%float |} ])
             [1; 3] "sigL1"%string eq_refl eq_refl).
  - exact (proj2 (batch_is_one_signed_request Demo.frozen Demo.api [])
             [ {| mr_oid := 11%float; mr_order := Demo.btc_buy |};
               {| mr_oid := 12%float; mr_order := Demo.eth_sell |} ]
             [3; 1] "sigL1"%string eq_refl eq_refl).
Defined.

(** [placeOrder] called without a vault address: the dispatched payload has
    the [vaultAddress] key, holding [null]; the key is not absent. *)
Lemma placeOrder_without_vault_writes_null :
  map vaultAddress
    (requests (events (placeOrder Demo.ticking Demo.api Demo.btc_buy absent) [])) =
  [present None] /\
  present (@None string) <> absent.
Proof. split; [vm_compute; reflexivity|discriminate]. Qed.

Lemma vaultAddress_only_in_placeOrder_witness :
  let c := PlaceOrder Demo.btc_buy absent in
  let p := {| action := OrderAct (Demo.order_action [Demo.wire (Some 3) Demo.btc_buy]); nonce := 1700000000001;
              signature := "sigL1"%string; vaultAddress := present None |} in
  vaultAddress p =
    match c with
    | PlaceOrder _ v => present (default_null v)
    | _ => absent
    end /\
  (vaultAddress p <> absent <-> is_placeOrder c = true) /\
  (forall r, c = PlaceOrder r absent -> vaultAddress p = present None).
Proof.
  apply (vaultAddress_only_in_placeOrder Demo.ticking Demo.api
           (PlaceOrder Demo.btc_buy absent) []).
  vm_compute. left. reflexivity.
Defined.

(** C7: [transferBetweenSpotAndPerp(2.01, true)] signs an action whose
    [usdc] field is [2009999.9999999998]: it is not an integer and is not
    [2010000], the amount in micro-units. *)
Lemma transferBetweenSpotAndPerp_fraction :
  exists x : number,
    signed_actions
      (events (transferBetweenSpotAndPerp Demo.frozen Demo.api 0x1.0147ae147ae14p+1%float
                 true) []) =
    [SpotUserAct SPOT_USER {| usdc := x; toPerp := true |}] /\
    Number_isInteger x = false /\
    x <> Z2number 2010000.
Proof.
  exists 0x1.eab8fffffffffp+20%float. split; [vm_compute; reflexivity|].
  split; [vm_compute; reflexivity|].
  intros H. apply (f_equal Number_isInteger) in H. vm_compute in H. discriminate.
Qed.

Lemma cancelOrderByCloid_builds_single_cancel_witness :
  let act := CancelByCloidAct CANCEL_BY_CLOID [{| asset := 1; cloid := "0xc1" |}] in
  let p := {| action := act; nonce := 1700000000001; signature := "sigL1"%string;
              vaultAddress := absent |} in
  cancelOrderByCloid Demo.ticking Demo.api "ETH" "0xc1" [] =
  (Ok "ok"%string,
   [EvResolve "ETH" (Some 1); EvNow 1700000000001; EvSignL1 act None 1700000000001;
    EvRequest p 1]).
Proof.
  exact (cancelOrderByCloid_builds_single_cancel Demo.ticking Demo.api
           "ETH" "0xc1" 1 [] eq_refl).
Defined.

Lemma transfer_nonce_is_action_time_witness :
  let c := UsdTransfer "0xabc" 100%float in
  let p := {| action := SendAct USD_SEND "Mainnet" "0xa4b1" "0xabc" "100" 1700000000000;
              nonce := 1700000000000; signature := "sigUsd"%string;
              vaultAddress := absent |} in
  action_time (action p) = Some (nonce p) /\
  signed_actions (events (call Demo.ticking Demo.api c) []) = [action p].
Proof.
  apply (transfer_nonce_is_action_time Demo.ticking Demo.api
           (UsdTransfer "0xabc" 100%float) []).
  - reflexivity.
  - vm_compute. left. reflexivity.
Defined.

(** ** The pipeline and the methods on concrete inputs *)

(** A rejecting signer: [scheduleCancel] rejects with what the signer threw
    and sends nothing. *)
Lemma signer_failure_is_rethrown_witness :
  let c := ScheduleCancel 5%float in
  fst (@call Demo.platform Faulty.signing Demo.ticking Demo.api c []) =
    Throw (Foreign "signer down"%string) /\
  requests (events (@call Demo.platform Faulty.signing Demo.ticking Demo.api c) []) = [].
Proof.
  apply (@signer_failure_is_rethrown Demo.platform Faulty.signing Demo.ticking Demo.api
           (ScheduleCancel 5%float) []
           (EvSignL1 (ScheduleCancelAct SCHEDULE_CANCEL 5%float) None 1700000000000)).
  - vm_compute. right. left. reflexivity.
  - reflexivity.
Defined.

(** A rejecting HTTP layer: [setReferrer] rejects with what the layer
    threw. *)
Lemma response_is_transport_answer_witness :
  fst (call Demo.ticking Faulty.offline (SetReferrer "CODE") []) =
  Throw (Foreign "429"%string).
Proof.
  apply (response_is_transport_answer Demo.ticking Faulty.offline
           (SetReferrer "CODE") []
           (@Build_Payload Demo.platform (SetReferrerAct SET_REFERRER "CODE")
              1700000000000 "sigL1"%string absent)).
  vm_compute. left. reflexivity.
Defined.

(** A batch whose second symbol is unknown still looks up the third. *)
Lemma every_symbol_is_looked_up_witness :
  let c := CancelOrder (Many [ {| cr_coin := "ETH"; cr_o := 7%float |};
                               {| cr_coin := "XRP"; cr_o := 8%float |};
                               {| cr_coin := "BTC"; cr_o := 9%float |} ]) in
  length (resolutions (events (call Demo.ticking Demo.api c) [])) = 3%nat /\
  resolutions (events (call Demo.ticking Demo.api c) []) !! 2%nat =
  Some ("BTC"%string, Some 3).
Proof.
  exact (every_symbol_is_looked_up Demo.ticking Demo.api
           (CancelOrder (Many [ {| cr_coin := "ETH"; cr_o := 7%float |};
                                {| cr_coin := "XRP"; cr_o := 8%float |};
                                {| cr_coin := "BTC"; cr_o := 9%float |} ]))
           [] 2%nat "BTC"%string eq_refl).
Defined.

Lemma symbol_free_call_always_signs_witness :
  let c := TransferBetweenSpotAndPerp 1%float true in
  resolutions (events (call Demo.ticking Demo.api c) []) = [] /\
  clock_reads (events (call Demo.ticking Demo.api c) []) = [1700000000000] /\
  nonces (events (call Demo.ticking Demo.api c) []) = [1700000000000] /\
  exists act, signed_actions (events (call Demo.ticking Demo.api c) []) = [act].
Proof.
  exact (symbol_free_call_always_signs Demo.ticking Demo.api
           (TransferBetweenSpotAndPerp 1%float true) [] eq_refl).
Defined.

(** [placeOrder] with a vault address signs with the L1 scheme under that
    address. *)
Lemma signing_scheme_by_operation_witness :
  let act := OrderAct (Demo.order_action [Demo.wire (Some 3) Demo.btc_buy]) in
  exists n,
    EvSignL1 act (Some "0xvault"%string) 1700000000001 =
    EvSignL1 act (Some "0xvault"%string) n.
Proof.
  apply (signing_scheme_by_operation Demo.ticking Demo.api
           (PlaceOrder Demo.btc_buy (present (Some "0xvault"%string))) []
           (EvSignL1 (OrderAct (Demo.order_action [Demo.wire (Some 3) Demo.btc_buy]))
              (Some "0xvault"%string) 1700000000001)
           (OrderAct (Demo.order_action [Demo.wire (Some 3) Demo.btc_buy]))).
  - vm_compute. right. right. left. reflexivity.
  - reflexivity.
Defined.

(** Three calls in a row under a clock that advances. *)
Lemma session_nonces_sorted_witness :
  let cs := [ PlaceOrder Demo.btc_buy absent;
              UsdTransfer "0xdest" 100%float;
              CancelOrder (One {| cr_coin := "XRP"; cr_o := 7%float |}) ] in
  exists evs,
    session Demo.ticking Demo.api cs [] = [] ++ evs /\
    (length (nonces evs) <= 3)%nat /\
    (length (requests evs) <= 3)%nat /\
    StronglySorted Z.le (nonces evs).
Proof.
  apply (session_nonces_sorted Demo.ticking Demo.api
           [ PlaceOrder Demo.btc_buy absent;
             UsdTransfer "0xdest" 100%float;
             CancelOrder (One {| cr_coin := "XRP"; cr_o := 7%float |}) ] []).
  intros i j Hij. unfold Demo.ticking. lia.
Defined.

Lemma placeOrder_signs_what_it_sends_witness :
  let evs := events (placeOrder Demo.ticking Demo.api Demo.btc_buy absent) [] in
  let act := OrderAct (Demo.order_action [Demo.wire (Some 3) Demo.btc_buy]) in
  signed_actions evs = [act] /\
  In (EvSignL1 act None 1700000000001) evs /\
  Forall (fun p => action p = act /\ nonce p = 1700000000001 /\
                   vaultAddress p = present None) (requests evs).
Proof.
  exact (placeOrder_signs_what_it_sends Demo.ticking Demo.api Demo.btc_buy absent 3 []
           eq_refl).
Defined.


(** ["Cross"] is not ["cross"]. *)
Lemma updateLeverage_cross_only_for_cross_witness :
  exists isCross,
    signed_actions
      (events (updateLeverage Demo.ticking Demo.api "ETH" "Cross" 5%float) []) =
    [UpdateLeverageAct UPDATE_LEVERAGE 1 isCross 5%float] /\
    (isCross = true <-> "Cross"%string = "cross"%string).
Proof.
  exact (updateLeverage_cross_only_for_cross Demo.ticking Demo.api "ETH" "Cross"
           5%float 1 [] eq_refl).
Defined.

Lemma updateIsolatedMargin_action_witness :
  let evs := events (updateIsolatedMargin Demo.ticking Demo.api "ETH" true 1000%float) [] in
  let act := UpdateIsolatedMarginAct UPDATE_ISOLATED_MARGIN 1 true 1000%float in
  signed_actions evs = [act] /\
  In (EvSignL1 act None 1700000000001) evs /\
  Forall (fun p => action p = act /\ nonce p = 1700000000001 /\
                   vaultAddress p = absent) (requests evs).
Proof.
  exact (updateIsolatedMargin_action Demo.ticking Demo.api "ETH" true 1000%float 1 []
           eq_refl).
Defined.


Lemma initiateWithdrawal_integer_amount_witness :
  let evs := events (initiateWithdrawal Demo.ticking Demo.api "0xdest" (Z2number (-25))) [] in
  let act := SendAct WITHDRAW "Mainnet" "0xa4b1" "0xdest" "-25" 1700000000000 in
  signed_actions evs = [act] /\
  In (EvSignWithdraw act) evs /\
  Forall (fun p => action p = act /\ nonce p = 1700000000000 /\
                   vaultAddress p = absent) (requests evs).
Proof.
  exact (initiateWithdrawal_integer_amount Demo.ticking Demo.api "0xdest" (-25) []
           eq_refl).
Defined.

Lemma cancelOrder_entries_by_position_witness :
  let reqs := [ {| cr_coin := "ETH"; cr_o := 7%float |};
                {| cr_coin := "BTC"; cr_o := 9%float |} ] in
  exists entries,
    CancelAct CANCEL [ {| a := 1; o := 7%float |}; {| a := 3; o := 9%float |} ] =
      CancelAct CANCEL entries /\
    length entries = 2%nat /\
    forall k req,
      reqs !! k = Some req ->
      exists i,
        Demo.directory (0 + k) (cr_coin req) = Some i /\
        entries !! k = Some {| a := i; o := cr_o req |}.
Proof.
  apply (cancelOrder_entries_by_position Demo.ticking Demo.api
           (Many [ {| cr_coin := "ETH"; cr_o := 7%float |};
                   {| cr_coin := "BTC"; cr_o := 9%float |} ]) []
           (CancelAct CANCEL [ {| a := 1; o := 7%float |}; {| a := 3; o := 9%float |} ])).
  vm_compute. left. reflexivity.
Defined.

Lemma batchModifyOrders_entries_by_position_witness :
  let modifies := [ {| mr_oid := 11%float; mr_order := Demo.btc_buy |};
                    {| mr_oid := 12%float; mr_order := Demo.eth_sell |} ] in
  exists entries,
    BatchModifyAct BATCH_MODIFY
      [ {| oid := 11%float; order := Demo.wire (Some 3) Demo.btc_buy |};
        {| oid := 12%float; order := Demo.wire (Some 1) Demo.eth_sell |} ] =
      BatchModifyAct BATCH_MODIFY entries /\
    length entries = 2%nat /\
    forall k m,
      modifies !! k = Some m ->
      exists i,
        Demo.directory (0 + k) (coin (mr_order m)) = Some i /\
        entries !! k =
        Some {| oid := mr_oid m; order := Demo.wire (Some i) (mr_order m) |}.
Proof.
  apply (batchModifyOrders_entries_by_position Demo.ticking Demo.api
           [ {| mr_oid := 11%float; mr_order := Demo.btc_buy |};
             {| mr_oid := 12%float; mr_order := Demo.eth_sell |} ] []
           (BatchModifyAct BATCH_MODIFY
              [ {| oid := 11%float; order := Demo.wire (Some 3) Demo.btc_buy |};
                {| oid := 12%float; order := Demo.wire (Some 1) Demo.eth_sell |} ])).
  vm_compute. left. reflexivity.
Defined.

(** A batch of two orders on different symbols: each entry carries its own
    order and the index of its own symbol. *)
Lemma resolved_index_is_embedded_witness :
  let modifies := [ {| mr_oid := 11%float; mr_order := Demo.btc_buy |};
                    {| mr_oid := 12%float; mr_order := Demo.eth_sell |} ] in
  let evs := events (batchModifyOrders Demo.ticking Demo.api modifies) [] in
  length (resolutions evs) = 2%nat /\
  (forall k s,
     ["BTC"; "ETH"]%string !! k = Some s ->
     resolutions evs !! k = Some (s, Demo.directory (0 + k) s)) /\
  exists act,
    signed_actions evs = [act] /\
    Forall (fun p => action p = act) (requests evs) /\
    action_assets act = map snd (resolutions evs) /\
    exists entries,
      act = BatchModifyAct BATCH_MODIFY entries /\
      length entries = 2%nat /\
      forall k m,
        modifies !! k = Some m ->
        exists i,
          Demo.directory (0 + k) (coin (mr_order m)) = Some i /\
          entries !! k =
          Some {| oid := mr_oid m; order := Demo.wire (Some i) (mr_order m) |}.
Proof.
  destruct (resolved_index_is_embedded Demo.ticking Demo.api
              (BatchModifyOrders
                 [ {| mr_oid := 11%float; mr_order := Demo.btc_buy |};
                   {| mr_oid := 12%float; mr_order := Demo.eth_sell |} ]) [])
    as (Hlen & Hlook & act & Hsg & Hrq & Hassets & Hshape).
  - intros [|[|k]] s H; simpl in H; try discriminate; injection H as <-;
      eexists; reflexivity.
  - split; [exact Hlen|]. split; [exact Hlook|].
    exists act. split; [exact Hsg|]. split; [exact Hrq|]. split; [|exact Hshape].
    apply Hassets; intros ?; reflexivity.
Defined.

Lemma transferBetweenSpotAndPerp_integer_usdc_witness :
  let evs := events (transferBetweenSpotAndPerp Demo.ticking Demo.api (Z2number 50) true) [] in
  let act := SpotUserAct SPOT_USER {| usdc := Z2number (50 * 1000000); toPerp := true |} in
  Z2number 50 = 50%float /\ Z2number (50 * 1000000) = 50000000%float /\
  signed_actions evs = [act] /\
  In (EvSignL1 act None 1700000000000) evs /\
  Forall (fun p => action p = act /\ nonce p = 1700000000000 /\
                   vaultAddress p = absent) (requests evs).
Proof.
  split; [vm_compute; reflexivity|]. split; [vm_compute; reflexivity|].
  apply (transferBetweenSpotAndPerp_integer_usdc Demo.ticking Demo.api 50 true []).
  vm_compute. reflexivity.
Defined.

(** Three unknown symbols, looked up in the order XRP, SOL, DOGE, on an
    instance whose lookups settle in reverse order: the error names DOGE,
    the last one of the array. *)
Lemma unknown_symbol_error_names_first_settled_witness :
  let c := CancelOrder (Many [ {| cr_coin := "XRP"; cr_o := 7%float |};
                               {| cr_coin := "SOL"; cr_o := 8%float |};
                               {| cr_coin := "DOGE"; cr_o := 9%float |} ]) in
  fst (call Demo.ticking Demo.racing c []) =
    Throw (Error "Unknown asset: DOGE"%string) /\
  exists j s',
    symbols c !! j = Some s' /\
    Demo.directory (0 + j) s' = None /\
    fst (call Demo.ticking Demo.racing c []) =
      Throw (Error ("Unknown asset: " ++ s')%string) /\
    forall j' s'',
      symbols c !! j' = Some s'' ->
      Demo.directory (0 + j') s'' = None ->
      (100 - (0 + j) <= 100 - (0 + j'))%nat /\
      (100 - (0 + j) = 100 - (0 + j') -> j <= j')%nat.
Proof.
  split; [vm_compute; reflexivity|].
  exact (unknown_symbol_error_names_first_settled Demo.ticking Demo.racing
           (CancelOrder (Many [ {| cr_coin := "XRP"; cr_o := 7%float |};
                                {| cr_coin := "SOL"; cr_o := 8%float |};
                                {| cr_coin := "DOGE"; cr_o := 9%float |} ]))
           [] 0%nat "XRP"%string eq_refl eq_refl).
Defined.
